(** * dslib: the node-level API of a distributed-systems simulator

    A shallow embedding of [dslib.py]: the [Message] envelope, the
    per-invocation [Context] with its three effect logs, and the parts of
    Python's [json] module that [Message.from_json], [Context.send] and
    [Context.send_local] call.

    Python values are a tagged union; a Python [str] is a Rocq [string]
    holding its UTF-8 bytes; a Python [float] is an IEEE-754 binary64 value
    ([spec_float] at precision 53).  Message payloads live in a store indexed
    by object identity, because [Message.__init__] keeps the reference it is
    given and [__setitem__]/[remove] update the object in place.  Methods run
    in a state-and-exception monad: an exception leaves the state reached so
    far in place, as in Python.  The class [Node] declares three callbacks
    and implements none; the calls a callback may make are the type [Call]. *)

From Stdlib Require Import ZArith String Ascii List Bool Lia.
From Stdlib Require Import Floats.SpecFloat Numbers.DecimalString.
From Stdlib Require Numbers.DecimalFacts Numbers.DecimalPos.
From stdpp Require Import base gmap strings list.

Import ListNotations.
Local Open Scope string_scope.
Local Open Scope Z_scope.

(** ** Python values *)

(** [VObj] stands for an object of any other class (a set, a bytes object,
    an instance of a user class): it is neither a string nor a number and
    [json.dumps] has no encoding for it. *)
#[local] Unset Elimination Schemes.
Inductive PyVal : Type :=
| VNone
| VBool (b : bool)
| VInt (z : Z)
| VFloat (f : spec_float)
| VStr (s : string)
| VList (items : list PyVal)
| VDict (items : list (string * PyVal))
| VObj (id : positive).
#[local] Set Elimination Schemes.

(** [isinstance(v, str)] *)
Definition isinstance_str (v : PyVal) : bool :=
  match v with
  | VStr _ => true
  | _ => false
  end.

(** [isinstance(v, (int, float))]: [bool] is a subclass of [int]. *)
Definition isinstance_int_float (v : PyVal) : bool :=
  match v with
  | VBool _ | VInt _ | VFloat _ => true
  | _ => false
  end.

(** ** Exceptions and outcomes *)

(** [JSONDecodeError] is the error [json.loads] raises on a malformed text.
    [SystemError] is reserved for a reference to no object, which Python
    never produces. *)
Inductive exn : Type :=
| TypeError
| KeyError
| AttributeError
| JSONDecodeError
| RecursionError
| SystemError.

Inductive outcome (A : Type) : Type :=
| Ok (a : A)
| Raise (e : exn).

Arguments Ok {A} a.
Arguments Raise {A} e.

Definition raises {A : Type} (o : outcome A) (e : exn) : Prop := o = Raise e.

Definition returns {A : Type} (o : outcome A) : Prop := exists a, o = Ok a.

(** ** Dictionaries

    A Python [dict] keeps its keys in insertion order, without duplicates. *)

Definition Dict := list (string * PyVal).

Fixpoint dict_get (d : Dict) (key : string) : option PyVal :=
  match d with
  | [] => None
  | (k, v) :: d' => if String.eqb k key then Some v else dict_get d' key
  end.

(** [d[key] = value]: an existing key keeps its position. *)
Fixpoint dict_set (d : Dict) (key : string) (value : PyVal) : Dict :=
  match d with
  | [] => [(key, value)]
  | (k, v) :: d' =>
      if String.eqb k key then (k, value) :: d'
      else (k, v) :: dict_set d' key value
  end.

(** [d.pop(key, None)], the dictionary afterwards. *)
Fixpoint dict_pop (d : Dict) (key : string) : Dict :=
  match d with
  | [] => []
  | (k, v) :: d' =>
      if String.eqb k key then d' else (k, v) :: dict_pop d' key
  end.

(** [dict(pairs)]: a later pair overwrites an earlier one with the same key. *)
Definition dict_of_pairs (pairs : list (string * PyVal)) : Dict :=
  fold_left (fun d kv => dict_set d (fst kv) (snd kv)) pairs [].

(** ** The state-and-exception monad *)

Definition Eff (S A : Type) : Type := S -> S * outcome A.

Definition ret {S A : Type} (a : A) : Eff S A := fun s => (s, Ok a).

Definition raise {S A : Type} (e : exn) : Eff S A := fun s => (s, Raise e).

Definition bind {S A B : Type} (m : Eff S A) (k : A -> Eff S B) : Eff S B :=
  fun s =>
    match m s with
    | (s', Ok a) => k a s'
    | (s', Raise e) => (s', Raise e)
    end.

Definition get_state {S : Type} : Eff S S := fun s => (s, Ok s).

Definition modify {S : Type} (f : S -> S) : Eff S unit := fun s => (f s, Ok tt).

(** An outcome computed without touching the state. *)
Definition lift {S A : Type} (o : outcome A) : Eff S A := fun s => (s, o).

Declare Scope eff_scope.
Delimit Scope eff_scope with eff.

Notation "x <- m ;; k" := (bind m (fun x => k))
  (at level 100, m at next level, right associativity) : eff_scope.
Notation "m ;;; k" := (bind m (fun _ => k))
  (at level 100, right associativity) : eff_scope.

Local Open Scope eff_scope.

(** ** Numbers and their texts *)

(** [int.__repr__] *)
Definition int_repr (z : Z) : string := NilZero.string_of_int (Z.to_int z).

(** [float(text)] for the decimal [(-1)^neg * digits * 10^exp10], rounded to
    the nearest binary64 value, ties to even. *)
Definition float_of_decimal (neg : bool) (digits exp10 : Z) : spec_float :=
  match digits with
  | Z0 => S754_zero neg
  | Zneg _ => S754_nan
  | Zpos _ =>
      if 0 <=? exp10 then
        binary_normalize 53 1024
          (if neg then - (digits * 10 ^ exp10) else digits * 10 ^ exp10) 0 false
      else
        let '(q, e, l) := SFdiv_core_binary 53 1024 digits 0 (10 ^ (- exp10)) 0 in
        binary_round_aux 53 1024 neg q e l
  end.

(** *** [float.__repr__]

    The shortest decimal text that reads back as the same binary64 value,
    and among the shortest the one closest to it. *)

(** The value [m * 2^e] as a fraction of integers. *)
Definition float_fraction (m : positive) (e : Z) : Z * Z :=
  if 0 <=? e then (Zpos m * 2 ^ e, 1) else (Zpos m, 2 ^ (- e)).

(** The fraction [num / den] divided by [10^k]. *)
Definition scale10 (num den k : Z) : Z * Z :=
  if 0 <=? k then (num, den * 10 ^ k) else (num * 10 ^ (- k), den).

(** [10^k <= num / den] *)
Definition at_least_pow10 (num den k : Z) : bool :=
  let '(a, b) := scale10 num den k in b <=? a.

(** The [k] with [10^k <= num / den < 10^(k + 1)], searched around the
    estimate that the binary logarithms give. *)
Definition floor_log10 (num den : Z) : Z :=
  let est := ((Z.log2 num - Z.log2 den) * 30103) / 100000 in
  if at_least_pow10 num den (est + 2) then est + 2
  else if at_least_pow10 num den (est + 1) then est + 1
  else if at_least_pow10 num den est then est
  else if at_least_pow10 num den (est - 1) then est - 1
  else est - 2.

(** [float(text)] of the decimal [d * 10^k] is the float [m * 2^e]. *)
Definition reads_back (m : positive) (e : Z) (d k : Z) : bool :=
  match float_of_decimal false d k with
  | S754_finite _ m' e' => Pos.eqb m m' && (e =? e')
  | _ => false
  end.

(** The digits [d] and the exponent [k] of the shortest decimal [d * 10^k]
    that reads back as [num / den = m * 2^e], trying [n], [n + 1], ...
    significant digits: the decimal below and the decimal above, the nearer
    one when both read back, the one with the even last digit on a tie. *)
Fixpoint shortest_decimal (fuel : nat) (m : positive) (e : Z) (num den k0 n : Z)
  : Z * Z :=
  let k := k0 - n + 1 in
  let '(a, b) := scale10 num den k in
  let lo := a / b in
  let r := a mod b in
  let hi := lo + 1 in
  match fuel with
  | O => (lo, k)
  | S fuel' =>
      match reads_back m e lo k, reads_back m e hi k with
      | true, true =>
          match 2 * r ?= b with
          | Lt => (lo, k)
          | Gt => (hi, k)
          | Eq => if Z.even lo then (lo, k) else (hi, k)
          end
      | true, false => (lo, k)
      | false, true => (hi, k)
      | false, false => shortest_decimal fuel' m e num den k0 (n + 1)
      end
  end.

(** Trailing zeros of the digits moved into the exponent. *)
Fixpoint strip_zeros (fuel : nat) (d k : Z) : Z * Z :=
  match fuel with
  | O => (d, k)
  | S fuel' =>
      if (d mod 10 =? 0) && (0 <? d) then strip_zeros fuel' (d / 10) (k + 1)
      else (d, k)
  end.

Fixpoint zeros (n : nat) : string :=
  match n with
  | O => EmptyString
  | S n' => String "0"%char (zeros n')
  end.

(** The first [n] characters of a string, and the rest. *)
Fixpoint split_at (n : nat) (s : string) : string * string :=
  match n, s with
  | S n', String c s' => let '(a, b) := split_at n' s' in (String c a, b)
  | _, _ => (EmptyString, s)
  end.

(** The text of the decimal [0.digits * 10^decpt] in the format of [repr]:
    exponent notation when [decpt <= -4] or [decpt > 16]. *)
Definition format_repr (digits : string) (decpt : Z) : string :=
  let len := Z.of_nat (String.length digits) in
  if (decpt <=? -4) || (16 <? decpt) then
    let '(first, rest) := split_at 1 digits in
    let exp := decpt - 1 in
    let mantissa :=
      match rest with
      | EmptyString => first
      | _ => first ++ "." ++ rest
      end in
    let exp_digits := int_repr (Z.abs exp) in
    mantissa ++ "e" ++ (if exp <? 0 then "-" else "+")
      ++ (if Z.abs exp <? 10 then "0" else "") ++ exp_digits
  else if decpt <=? 0 then
    "0." ++ zeros (Z.to_nat (- decpt)) ++ digits
  else if len <=? decpt then
    digits ++ zeros (Z.to_nat (decpt - len)) ++ ".0"
  else
    let '(whole, frac) := split_at (Z.to_nat decpt) digits in
    whole ++ "." ++ frac.

(** [repr(f)].  At most 17 significant digits are needed for a binary64
    value; a mantissa and an exponent that are not those of one get 17 digits
    of their value. *)
Definition float_repr (f : spec_float) : string :=
  match f with
  | S754_nan => "nan"
  | S754_infinity false => "inf"
  | S754_infinity true => "-inf"
  | S754_zero false => "0.0"
  | S754_zero true => "-0.0"
  | S754_finite s m e =>
      let '(num, den) := float_fraction m e in
      let k0 := floor_log10 num den in
      let '(d0, k1) := shortest_decimal 17 m e num den k0 1 in
      let '(d, k) := strip_zeros 17 d0 k1 in
      let digits := int_repr d in
      (if s then "-" else "")
        ++ format_repr digits (Z.of_nat (String.length digits) + k)
  end.

(** ** [json.dumps]

    The encoder with its default options: separators [", "] and [": "],
    [ensure_ascii=True], [allow_nan=True], [check_circular] without effect on
    values that are trees.  The interpreter's limits (recursion depth, number
    of digits of an integer turned into text) are not part of the model. *)

Local Open Scope N_scope.

Definition hex_digit (n : N) : ascii :=
  if n <? 10 then ascii_of_N (48 + n) else ascii_of_N (87 + n).

(** [format(n, '04x')] for [n < 0x10000] *)
Definition hex4 (n : N) : string :=
  String (hex_digit (N.land (N.shiftr n 12) 15))
    (String (hex_digit (N.land (N.shiftr n 8) 15))
       (String (hex_digit (N.land (N.shiftr n 4) 15))
          (String (hex_digit (N.land n 15)) EmptyString))).

(** The replacement of a code point outside [' '..'~']: one [\uXXXX] escape,
    or a surrogate pair above the basic plane. *)
Definition escape_codepoint (n : N) : string :=
  if n <? 65536 then ("\u" ++ hex4 n)%string
  else
    let n' := n - 65536 in
    let s1 := N.lor 55296 (N.land (N.shiftr n' 10) 1023) in
    let s2 := N.lor 56320 (N.land n' 1023) in
    ("\u" ++ hex4 s1 ++ "\u" ++ hex4 s2)%string.

(** The double quote character, as a string. *)
Definition quote : string := String "034"%char EmptyString.

(** The replacement of one ASCII character ([ESCAPE_DCT] and the printable
    range that is kept). *)
Definition escape_ascii (c : ascii) : string :=
  let n := N_of_ascii c in
  if n =? 34 then String "\"%char quote
  else if n =? 92 then "\\"
  else if n =? 10 then "\n"
  else if n =? 13 then "\r"
  else if n =? 9 then "\t"
  else if n =? 8 then "\b"
  else if n =? 12 then "\f"
  else if (32 <=? n) && (n <=? 126) then String c EmptyString
  else escape_codepoint n.

Definition is_cont (c : ascii) : bool := N.land (N_of_ascii c) 192 =? 128.

Definition cont_bits (c : ascii) : N := N.land (N_of_ascii c) 63.

(** The characters of a string, escaped one code point at a time.  A byte
    that starts no UTF-8 sequence does not come from a Python string; it is
    escaped on its own. *)
Fixpoint escape_chars (s : string) : string :=
  match s with
  | EmptyString => EmptyString
  | String c0 s1 =>
      let b0 := N_of_ascii c0 in
      let alone := (escape_codepoint b0 ++ escape_chars s1)%string in
      if b0 <? 128 then (escape_ascii c0 ++ escape_chars s1)%string
      else
        match s1 with
        | String c1 s2 =>
            if (N.land b0 224 =? 192) && is_cont c1 then
              (escape_codepoint
                 (N.lor (N.shiftl (N.land b0 31) 6) (cont_bits c1))
                 ++ escape_chars s2)%string
            else
              match s2 with
              | String c2 s3 =>
                  if (N.land b0 240 =? 224) && is_cont c1 && is_cont c2 then
                    (escape_codepoint
                       (N.lor (N.shiftl (N.land b0 15) 12)
                          (N.lor (N.shiftl (cont_bits c1) 6) (cont_bits c2)))
                       ++ escape_chars s3)%string
                  else
                    match s3 with
                    | String c3 s4 =>
                        if (N.land b0 248 =? 240) && is_cont c1
                           && is_cont c2 && is_cont c3 then
                          (escape_codepoint
                             (N.lor (N.shiftl (N.land b0 7) 18)
                                (N.lor (N.shiftl (cont_bits c1) 12)
                                   (N.lor (N.shiftl (cont_bits c2) 6)
                                      (cont_bits c3))))
                             ++ escape_chars s4)%string
                        else alone
                    | EmptyString => alone
                    end
              | EmptyString => alone
              end
        | EmptyString => alone
        end
  end.

(** [json.encoder.py_encode_basestring_ascii] *)
Definition encode_basestring_ascii (s : string) : string :=
  (quote ++ escape_chars s ++ quote)%string.

Local Close Scope N_scope.

Section Traverse.

Variables A B : Type.
Variable f : A -> outcome B.

(** [f] over a list, left to right, up to the first exception. *)
Fixpoint traverse (l : list A) : outcome (list B) :=
  match l with
  | [] => Ok []
  | x :: l' =>
      match f x with
      | Ok y =>
          match traverse l' with
          | Ok ys => Ok (y :: ys)
          | Raise e => Raise e
          end
      | Raise e => Raise e
      end
  end.

End Traverse.

Arguments traverse {A B} f l.

(** [floatstr] of the encoder, with [allow_nan=True]. *)
Definition floatstr (f : spec_float) : string :=
  match f with
  | S754_nan => "NaN"
  | S754_infinity false => "Infinity"
  | S754_infinity true => "-Infinity"
  | _ => float_repr f
  end.

(** One [key: value] chunk of a dictionary. *)
Definition item_chunk (key : string) (value : outcome string) : outcome string :=
  match value with
  | Ok s => Ok (encode_basestring_ascii key ++ ": " ++ s)
  | Raise e => Raise e
  end.

Fixpoint json_encode (o : PyVal) : outcome string :=
  match o with
  | VNone => Ok "null"
  | VBool true => Ok "true"
  | VBool false => Ok "false"
  | VInt z => Ok (int_repr z)
  | VFloat f => Ok (floatstr f)
  | VStr s => Ok (encode_basestring_ascii s)
  | VList items =>
      match traverse json_encode items with
      | Ok chunks => Ok ("[" ++ String.concat ", " chunks ++ "]")
      | Raise e => Raise e
      end
  | VDict items =>
      match traverse (fun '(k, x) => item_chunk k (json_encode x)) items with
      | Ok chunks => Ok ("{" ++ String.concat ", " chunks ++ "}")
      | Raise e => Raise e
      end
  | VObj _ => Raise TypeError
  end.

(** [json.dumps(obj)] *)
Definition json_dumps (obj : PyVal) : outcome string := json_encode obj.

(** The values [json.dumps] has an encoding for: scalars, and lists and
    dictionaries of such values. *)
Fixpoint json_representable (o : PyVal) : bool :=
  match o with
  | VList items => forallb json_representable items
  | VDict items => forallb (fun '(_, x) => json_representable x) items
  | VObj _ => false
  | _ => true
  end.

(** The values the decoder builds: JSON values, in which no dictionary has a
    key twice. *)
Fixpoint is_json (o : PyVal) : bool :=
  match o with
  | VList items => forallb is_json items
  | VDict items =>
      bool_decide (NoDup (map fst items)) && forallb (fun '(_, x) => is_json x) items
  | VObj _ => false
  | _ => true
  end.

(** ** [json.loads]

    The decoder with its default options ([strict=True], no hooks): the
    scanner of [json.scanner], [scanstring], [JSONArray] and [JSONObject] of
    [json.decoder].  The interpreter's limits (recursion depth, length of an
    integer literal) are not part of the model. *)

Definition is_digit (c : ascii) : bool :=
  let n := N_of_ascii c in ((48 <=? n) && (n <=? 57))%N.

Definition digit_value (c : ascii) : Z := Z.of_N (N_of_ascii c) - 48.

(** The longest run of decimal digits at the front of [s], and what follows. *)
Fixpoint span_digits (s : string) : list ascii * string :=
  match s with
  | String c s' =>
      if is_digit c then
        let '(ds, rest) := span_digits s' in (c :: ds, rest)
      else ([], s)
  | EmptyString => ([], s)
  end.

(** [int(digits)] *)
Definition Z_of_digits (ds : list ascii) : Z :=
  fold_left (fun acc c => 10 * acc + digit_value c) ds 0.

(** The integer part of [NUMBER_RE]: a single zero, or a digit other than
    zero and the digits behind it. *)
Definition scan_integer (s : string) : option (list ascii * string) :=
  match s with
  | String c s1 =>
      if Ascii.eqb c "0"%char then Some ([c], s1)
      else if is_digit c then
        let '(ds, rest) := span_digits s1 in Some (c :: ds, rest)
      else None
  | EmptyString => None
  end.

(** The optional fraction of [NUMBER_RE], a point and at least one digit:
    its digits. *)
Definition scan_frac (s : string) : list ascii * string :=
  match s with
  | String "."%char s' =>
      match span_digits s' with
      | ([], _) => ([], s)
      | (fds, rest) => (fds, rest)
      end
  | _ => ([], s)
  end.

(** The optional exponent of [NUMBER_RE], the letter e in either case, an
    optional sign and at least one digit: its value. *)
Definition scan_exp (s : string) : option Z * string :=
  match s with
  | String c s' =>
      if Ascii.eqb c "e"%char || Ascii.eqb c "E"%char then
        let '(eneg, s'') :=
          match s' with
          | String "-"%char r => (true, r)
          | String "+"%char r => (false, r)
          | _ => (false, s')
          end in
        match span_digits s'' with
        | ([], _) => (None, s)
        | (eds, rest) =>
            (Some (if eneg then - Z_of_digits eds else Z_of_digits eds), rest)
        end
      else (None, s)
  | EmptyString => (None, s)
  end.

(** The value of a number token: [int(integer)] when it has neither a
    fraction nor an exponent, [float(integer + frac + exp)] otherwise. *)
Definition number_value (neg : bool) (integer frac : list ascii) (exp : option Z)
  : PyVal :=
  match frac, exp with
  | [], None => VInt (if neg then - Z_of_digits integer else Z_of_digits integer)
  | _, _ =>
      let e := match exp with Some e => e | None => 0 end in
      VFloat (float_of_decimal neg (Z_of_digits (integer ++ frac))
                (e - Z.of_nat (length frac)))
  end.

(** [NUMBER_RE.match]: an optional minus sign, the integer part, the
    optional fraction and exponent; and the value the scanner makes of the
    token. *)
Definition match_number (s : string) : option (PyVal * string) :=
  let '(neg, s0) :=
    match s with
    | String "-"%char s' => (true, s')
    | _ => (false, s)
    end in
  match scan_integer s0 with
  | None => None
  | Some (integer, s1) =>
      let '(frac, s2) := scan_frac s1 in
      let '(exp, s3) := scan_exp s2 in
      Some (number_value neg integer frac exp, s3)
  end.

Local Open Scope N_scope.

Definition hex_value (c : ascii) : option N :=
  let n := N_of_ascii c in
  if (48 <=? n) && (n <=? 57) then Some (n - 48)
  else if (97 <=? n) && (n <=? 102) then Some (n - 87)
  else if (65 <=? n) && (n <=? 70) then Some (n - 55)
  else None.

(** [_decode_uXXXX]: four hexadecimal digits, and what follows them. *)
Definition decode_uXXXX (s : string) : option (N * string) :=
  match s with
  | String a (String b (String c (String d rest))) =>
      match hex_value a, hex_value b, hex_value c, hex_value d with
      | Some x3, Some x2, Some x1, Some x0 =>
          Some (N.lor (N.shiftl x3 12)
                  (N.lor (N.shiftl x2 8) (N.lor (N.shiftl x1 4) x0)), rest)
      | _, _, _, _ => None
      end
  | _ => None
  end.

(** [chr(n)] as the bytes of its UTF-8 encoding; a surrogate takes the
    three-byte form. *)
Definition chr (n : N) : string :=
  if n <? 128 then String (ascii_of_N n) EmptyString
  else if n <? 2048 then
    String (ascii_of_N (N.lor 192 (N.shiftr n 6)))
      (String (ascii_of_N (N.lor 128 (N.land n 63))) EmptyString)
  else if n <? 65536 then
    String (ascii_of_N (N.lor 224 (N.shiftr n 12)))
      (String (ascii_of_N (N.lor 128 (N.land (N.shiftr n 6) 63)))
         (String (ascii_of_N (N.lor 128 (N.land n 63))) EmptyString))
  else
    String (ascii_of_N (N.lor 240 (N.shiftr n 18)))
      (String (ascii_of_N (N.lor 128 (N.land (N.shiftr n 12) 63)))
         (String (ascii_of_N (N.lor 128 (N.land (N.shiftr n 6) 63)))
            (String (ascii_of_N (N.lor 128 (N.land n 63))) EmptyString))).

(** The [BACKSLASH] table. *)
Definition backslash (c : ascii) : option ascii :=
  let n := N_of_ascii c in
  if n =? 34 then Some c
  else if n =? 92 then Some c
  else if n =? 47 then Some c
  else if n =? 98 then Some (ascii_of_N 8)
  else if n =? 102 then Some (ascii_of_N 12)
  else if n =? 110 then Some (ascii_of_N 10)
  else if n =? 114 then Some (ascii_of_N 13)
  else if n =? 116 then Some (ascii_of_N 9)
  else None.

(** [scanstring(s, end, strict=True)], called behind the opening quote: the
    decoded string and the text behind the closing quote.  [None] is a
    [JSONDecodeError]: no closing quote, a control character, a bad escape. *)
Fixpoint scanstring (s : string) : option (string * string) :=
  match s with
  | EmptyString => None
  | String c s1 =>
      let n := N_of_ascii c in
      if n =? 34 then Some (EmptyString, s1)
      else if n =? 92 then
        match s1 with
        | EmptyString => None
        | String esc s2 =>
            if N_of_ascii esc =? 117 then
              match decode_uXXXX s2 with
              | None => None
              | Some (uni, s3) =>
                  let single :=
                    match s2 with
                    | String _ (String _ (String _ (String _ r))) =>
                        match scanstring r with
                        | Some (str, rest) => Some ((chr uni ++ str)%string, rest)
                        | None => None
                        end
                    | _ => None
                    end in
                  if (55296 <=? uni) && (uni <=? 56319) then
                    match s2 with
                    | String _ (String _ (String _ (String _
                        (String "\"%char (String "u"%char s4))))) =>
                        match decode_uXXXX s4 with
                        | None => None
                        | Some (uni2, _) =>
                            if (56320 <=? uni2) && (uni2 <=? 57343) then
                              match s4 with
                              | String _ (String _ (String _ (String _ r))) =>
                                  match scanstring r with
                                  | Some (str, rest) =>
                                      Some ((chr (65536 +
                                                  N.lor (N.shiftl (uni - 55296) 10)
                                                    (uni2 - 56320)) ++ str)%string,
                                            rest)
                                  | None => None
                                  end
                              | _ => None
                              end
                            else single
                        end
                    | _ => single
                    end
                  else single
              end
            else
              match backslash esc with
              | None => None
              | Some ch =>
                  match scanstring s2 with
                  | Some (str, rest) => Some (String ch str, rest)
                  | None => None
                  end
              end
        end
      else if n <? 32 then None
      else
        match scanstring s1 with
        | Some (str, rest) => Some (String c str, rest)
        | None => None
        end
  end.

Definition is_whitespace (c : ascii) : bool :=
  let n := N_of_ascii c in (n =? 32) || (n =? 9) || (n =? 10) || (n =? 13).

(** [WHITESPACE.match(s, end).end()] *)
Fixpoint skip_whitespace (s : string) : string :=
  match s with
  | String c s' => if is_whitespace c then skip_whitespace s' else s
  | EmptyString => s
  end.

Local Close Scope N_scope.

(** [s[idx:idx + len(p)] == p], and the text behind it. *)
Fixpoint strip_prefix (p s : string) : option string :=
  match p, s with
  | EmptyString, _ => Some s
  | String a p', String b s' => if Ascii.eqb a b then strip_prefix p' s' else None
  | String _ _, EmptyString => None
  end.

(** The result of scanning a value at the front of a text.  [Exhausted] is
    the scanner's recursion budget running out. *)
Inductive scan (A : Type) : Type :=
| Scanned (a : A) (rest : string)
| Malformed
| Exhausted.

Arguments Scanned {A} a rest.
Arguments Malformed {A}.
Arguments Exhausted {A}.

(** [scan_once] of [json.scanner], with [JSONArray] and [JSONObject] behind
    the opening bracket: [array_items] and [object_items] are their loops,
    entered where a value (a key) is expected, with the items read so far in
    reverse. *)
Fixpoint scan_once (fuel : nat) (s : string) {struct fuel} : scan PyVal :=
  match fuel with
  | O => Exhausted
  | S fuel' =>
      match s with
      | EmptyString => Malformed
      | String nextchar s' =>
          if Ascii.eqb nextchar "034"%char then
            match scanstring s' with
            | Some (str, rest) => Scanned (VStr str) rest
            | None => Malformed
            end
          else if Ascii.eqb nextchar "{"%char then
            let s1 := skip_whitespace s' in
            match strip_prefix "}" s1 with
            | Some rest => Scanned (VDict []) rest
            | None => object_items fuel' s1 []
            end
          else if Ascii.eqb nextchar "["%char then
            let s1 := skip_whitespace s' in
            match strip_prefix "]" s1 with
            | Some rest => Scanned (VList []) rest
            | None => array_items fuel' s1 []
            end
          else
            match strip_prefix "null" s, strip_prefix "true" s,
                  strip_prefix "false" s with
            | Some rest, _, _ => Scanned VNone rest
            | _, Some rest, _ => Scanned (VBool true) rest
            | _, _, Some rest => Scanned (VBool false) rest
            | None, None, None =>
                match match_number s with
                | Some (v, rest) => Scanned v rest
                | None =>
                    match strip_prefix "NaN" s, strip_prefix "Infinity" s,
                          strip_prefix "-Infinity" s with
                    | Some rest, _, _ => Scanned (VFloat S754_nan) rest
                    | _, Some rest, _ => Scanned (VFloat (S754_infinity false)) rest
                    | _, _, Some rest => Scanned (VFloat (S754_infinity true)) rest
                    | None, None, None => Malformed
                    end
                end
            end
      end
  end

with array_items (fuel : nat) (s : string) (acc : list PyVal)
  {struct fuel} : scan PyVal :=
  match fuel with
  | O => Exhausted
  | S fuel' =>
      match scan_once fuel' s with
      | Scanned value rest =>
          let s1 := skip_whitespace rest in
          match strip_prefix "]" s1, strip_prefix "," s1 with
          | Some rest', _ => Scanned (VList (rev (value :: acc))) rest'
          | _, Some rest' =>
              array_items fuel' (skip_whitespace rest') (value :: acc)
          | None, None => Malformed
          end
      | Malformed => Malformed
      | Exhausted => Exhausted
      end
  end

with object_items (fuel : nat) (s : string) (acc : list (string * PyVal))
  {struct fuel} : scan PyVal :=
  match fuel with
  | O => Exhausted
  | S fuel' =>
      match strip_prefix quote s with
      | Some s1 =>
          match scanstring s1 with
          | Some (key, rest) =>
              match strip_prefix ":" (skip_whitespace rest) with
              | Some rest1 =>
                  match scan_once fuel' (skip_whitespace rest1) with
                  | Scanned value rest2 =>
                      let s2 := skip_whitespace rest2 in
                      match strip_prefix "}" s2, strip_prefix "," s2 with
                      | Some rest', _ =>
                          Scanned (VDict (dict_of_pairs (rev ((key, value) :: acc))))
                            rest'
                      | _, Some rest' =>
                          object_items fuel' (skip_whitespace rest')
                            ((key, value) :: acc)
                      | None, None => Malformed
                      end
                  | Malformed => Malformed
                  | Exhausted => Exhausted
                  end
              | None => Malformed
              end
          | None => Malformed
          end
      | None => Malformed
      end
  end.


(** A budget no text exhausts: every nested call is behind a character that
    has been read. *)
Definition scan_budget (s : string) : nat := 2 * String.length s + 1.

(** [json.loads(s)]: one value between optional whitespace, nothing else.
    [RecursionError] is what the interpreter raises when the scanner's
    recursion budget runs out. *)
Definition json_loads (s : string) : outcome PyVal :=
  let s0 := skip_whitespace s in
  match scan_once (scan_budget s0) s0 with
  | Scanned obj rest =>
      match skip_whitespace rest with
      | EmptyString => Ok obj
      | String _ _ => Raise JSONDecodeError
      end
  | Malformed => Raise JSONDecodeError
  | Exhausted => Raise RecursionError
  end.

(** ** The object store

    A payload is held by reference: the store maps the identity of an object
    to its current value. *)

Definition loc := positive.

Abbreviation Heap := (gmap loc PyVal).

(** A new object with value [v]; its identity is one not in use. *)
Definition alloc (v : PyVal) : Eff Heap loc :=
  fun h => let l := fresh (dom h) in (<[l := v]> h, Ok l).

(** The object behind a reference. *)
Definition deref (l : loc) (h : Heap) : outcome PyVal :=
  match h !! l with
  | Some v => Ok v
  | None => Raise SystemError
  end.

(** ** class Message *)

Module Message.

(** A message holds its type tag and a reference to its payload. *)
Record t : Type := { _type : string; _data : loc }.

(** [Message(message_type, data)] keeps the reference [data]: no copy. *)
Definition __init__ (message_type : string) (data : loc) : t :=
  {| _type := message_type; _data := data |}.

(** The property [type]. *)
Definition type (self : t) : string := _type self.

(** [self._data[key]]: [KeyError] for a key the dictionary does not have,
    [TypeError] when the payload takes no string subscript. *)
Definition __getitem__ (self : t) (key : string) : Eff Heap PyVal :=
  h <- get_state ;;
  data <- lift (deref (_data self) h) ;;
  match data with
  | VDict items =>
      match dict_get items key with
      | Some value => ret value
      | None => raise KeyError
      end
  | _ => raise TypeError
  end.

(** [self._data[key] = value] *)
Definition __setitem__ (self : t) (key : string) (value : PyVal) : Eff Heap unit :=
  h <- get_state ;;
  data <- lift (deref (_data self) h) ;;
  match data with
  | VDict items => modify (insert (_data self) (VDict (dict_set items key value)))
  | _ => raise TypeError
  end.

(** [self._data.pop(key, None)]: a list's [pop] takes no default, the
    other values have no [pop]. *)
Definition remove (self : t) (key : string) : Eff Heap unit :=
  h <- get_state ;;
  data <- lift (deref (_data self) h) ;;
  match data with
  | VDict items => modify (insert (_data self) (VDict (dict_pop items key)))
  | VList _ => raise TypeError
  | _ => raise AttributeError
  end.

(** [Message(message_type, json.loads(json_str))]: the decoded value is a
    new object. *)
Definition from_json (message_type : string) (json_str : string) : Eff Heap t :=
  obj <- lift (json_loads json_str) ;;
  data <- alloc obj ;;
  ret (__init__ message_type data).

End Message.

(** ** class Context *)

Module Context.

(** A timer action is [(opcode, timer_id, delay)]; the delay is the object
    the caller passed, or the integer [0] of a cancellation. *)
Record t : Type := {
  _time : PyVal;
  _sent_messages : list (string * string * string);
  _sent_local_messages : list (string * string);
  _timer_actions : list (string * string * PyVal)
}.

(** [Context(time)]: the given time and three empty logs. *)
Definition __init__ (time : PyVal) : t :=
  {| _time := time;
     _sent_messages := [];
     _sent_local_messages := [];
     _timer_actions := [] |}.

(** The string behind a value that passed [isinstance(v, str)]. *)
Definition str_value (v : PyVal) : string :=
  match v with
  | VStr s => s
  | _ => EmptyString
  end.

Section Methods.

(** The store at the time of the call: a method reads the payload of its
    message there. *)
Variable heap : Heap.

(** [send]: the check of [to], then
    [self._sent_messages.append((msg.type, json.dumps(msg._data), to))]. *)
Definition send (msg : Message.t) (to : PyVal) : Eff t unit :=
  if negb (isinstance_str to) then raise TypeError
  else
    data <- lift (deref (Message._data msg) heap) ;;
    text <- lift (json_dumps data) ;;
    modify (fun self =>
      {| _time := _time self;
         _sent_messages :=
           _sent_messages self ++ [(Message.type msg, text, str_value to)];
         _sent_local_messages := _sent_local_messages self;
         _timer_actions := _timer_actions self |}).

(** [send_local]:
    [self._sent_local_messages.append((msg.type, json.dumps(msg._data)))]. *)
Definition send_local (msg : Message.t) : Eff t unit :=
  data <- lift (deref (Message._data msg) heap) ;;
  text <- lift (json_dumps data) ;;
  modify (fun self =>
    {| _time := _time self;
       _sent_messages := _sent_messages self;
       _sent_local_messages :=
         _sent_local_messages self ++ [(Message.type msg, text)];
       _timer_actions := _timer_actions self |}).

End Methods.

(** [set_timer]: the check of [timer_id], the check of [delay], then
    [self._timer_actions.append(("s", timer_id, delay))]. *)
Definition set_timer (timer_id : PyVal) (delay : PyVal) : Eff t unit :=
  if negb (isinstance_str timer_id) then raise TypeError
  else if negb (isinstance_int_float delay) then raise TypeError
  else
    modify (fun self =>
      {| _time := _time self;
         _sent_messages := _sent_messages self;
         _sent_local_messages := _sent_local_messages self;
         _timer_actions :=
           _timer_actions self ++ [("s", str_value timer_id, delay)] |}).

(** [cancel_timer]: the check of [timer_id], then
    [self._timer_actions.append(("c", timer_id, 0))]. *)
Definition cancel_timer (timer_id : PyVal) : Eff t unit :=
  if negb (isinstance_str timer_id) then raise TypeError
  else
    modify (fun self =>
      {| _time := _time self;
         _sent_messages := _sent_messages self;
         _sent_local_messages := _sent_local_messages self;
         _timer_actions :=
           _timer_actions self ++ [("c", str_value timer_id, VInt 0)] |}).

(** [time]: [self._time]. *)
Definition time (self : t) : PyVal := _time self.

Section Random.

(** The generator behind the [random] module: one hidden instance per
    process, seeded by the interpreter at import.  [random_uniform a b]
    is [random.uniform(a, b)] on it. *)
Variable RandomState : Type.
Variable random_uniform : PyVal -> PyVal -> RandomState -> RandomState * PyVal.

(** [rand] draws from the module's generator; [self] is not consulted. *)
Definition rand (self : t) : RandomState -> RandomState * PyVal :=
  random_uniform (VInt 0) (VInt 1).

End Random.

End Context.

(** ** One invocation of a node

    During a callback the node works on the store and on the one [Context]
    the engine handed it.  A [Call] is one method call of the node's code;
    [step] performs it and keeps the state it leaves behind, whether the
    call returned or raised (the node may catch the exception, or the
    callback ends there). *)

Record World : Type := { heap : Heap; ctx : Context.t }.

Inductive Call : Type :=
| Send (msg : Message.t) (to : PyVal)
| SendLocal (msg : Message.t)
| SetTimer (timer_id delay : PyVal)
| CancelTimer (timer_id : PyVal)
| Time
| GetItem (msg : Message.t) (key : string)
| SetItem (msg : Message.t) (key : string) (value : PyVal)
| Remove (msg : Message.t) (key : string)
| FromJson (message_type json_str : string).

(** A method of the context, run on the world. *)
Definition on_ctx {A : Type} (m : Heap -> Eff Context.t A) : Eff World A :=
  fun w =>
    let '(c, o) := m (heap w) (ctx w) in
    ({| heap := heap w; ctx := c |}, o).

(** A method of a message, run on the world. *)
Definition on_heap {A : Type} (m : Eff Heap A) : Eff World A :=
  fun w =>
    let '(h, o) := m (heap w) in
    ({| heap := h; ctx := ctx w |}, o).

(** One call of the node, on the world. *)
Definition call (c : Call) : Eff World unit :=
  match c with
  | Send msg to => on_ctx (fun h => Context.send h msg to)
  | SendLocal msg => on_ctx (fun h => Context.send_local h msg)
  | SetTimer timer_id delay => on_ctx (fun _ => Context.set_timer timer_id delay)
  | CancelTimer timer_id => on_ctx (fun _ => Context.cancel_timer timer_id)
  | Time => on_ctx (fun _ => self <- get_state ;; ret (Context.time self)) ;;; ret tt
  | GetItem msg key => on_heap (Message.__getitem__ msg key) ;;; ret tt
  | SetItem msg key value => on_heap (Message.__setitem__ msg key value)
  | Remove msg key => on_heap (Message.remove msg key)
  | FromJson message_type json_str =>
      on_heap (Message.from_json message_type json_str) ;;; ret tt
  end.

(** The world a call leaves behind. *)
Definition step (w : World) (c : Call) : World := fst (call c w).

(** The world a sequence of calls leaves behind. *)
Definition run (calls : list Call) (w : World) : World := fold_left step calls w.

(** * Vocabulary of the properties *)

(** [isinstance(v, dict)] *)
Definition isinstance_dict (v : PyVal) : bool :=
  match v with
  | VDict _ => true
  | _ => false
  end.


(** What a call adds to a log: the log afterwards is the log before,
    followed by the new entries. *)
Definition extends {A : Type} (before after : list A) : Prop :=
  exists tail, after = (before ++ tail)%list.

(** The context a successful [send] leaves behind. *)
Definition with_sent (c : Context.t) (entry : string * string * string) : Context.t :=
  {| Context._time := Context._time c;
     Context._sent_messages := Context._sent_messages c ++ [entry];
     Context._sent_local_messages := Context._sent_local_messages c;
     Context._timer_actions := Context._timer_actions c |}.

(** The context a successful [send_local] leaves behind. *)
Definition with_sent_local (c : Context.t) (entry : string * string) : Context.t :=
  {| Context._time := Context._time c;
     Context._sent_messages := Context._sent_messages c;
     Context._sent_local_messages := Context._sent_local_messages c ++ [entry];
     Context._timer_actions := Context._timer_actions c |}.

(** The context a successful [set_timer] or [cancel_timer] leaves behind. *)
Definition with_timer_action (c : Context.t) (entry : string * string * PyVal)
  : Context.t :=
  {| Context._time := Context._time c;
     Context._sent_messages := Context._sent_messages c;
     Context._sent_local_messages := Context._sent_local_messages c;
     Context._timer_actions := Context._timer_actions c ++ [entry] |}.

(** A context [c'] that [c] has grown into: the same time, and logs that
    start with the logs of [c]. *)
Definition grows (c c' : Context.t) : Prop :=
  Context._time c' = Context._time c
  /\ extends (Context._sent_messages c) (Context._sent_messages c')
  /\ extends (Context._sent_local_messages c) (Context._sent_local_messages c')
  /\ extends (Context._timer_actions c) (Context._timer_actions c').

(** The shape of a timer action: a schedule with the numeric delay it was
    given, or a cancellation with delay [0]. *)
Definition timer_action_shaped (entry : string * string * PyVal) : Prop :=
  let '(opcode, _, delay) := entry in
  (opcode = "s" /\ isinstance_int_float delay = true)
  \/ (opcode = "c" /\ delay = VInt 0).

(** The context after scheduling the timers of [timers], in order. *)
Definition with_timers_set (c : Context.t) (timers : list (string * PyVal)) : Context.t :=
  {| Context._time := Context._time c;
     Context._sent_messages := Context._sent_messages c;
     Context._sent_local_messages := Context._sent_local_messages c;
     Context._timer_actions :=
       Context._timer_actions c ++ map (fun t => ("s", fst t, snd t)) timers |}.

(** ** A worked invocation

    The scenario of the specification: a context at time [10.0] and the
    message [Message("ping", {})]. *)

Definition ping : Message.t := Message.__init__ "ping" 1%positive.

Definition ping_heap : Heap := <[1%positive := VDict []]> ∅.

(** [10.0] and [5.0], as the decoder reads them. *)
Definition ten : PyVal := VFloat (float_of_decimal false 100 (-1)).
Definition five : PyVal := VFloat (float_of_decimal false 50 (-1)).

Definition at_ten : Context.t := Context.__init__ ten.

(** ** Further vocabulary *)

(** The calls that schedule or cancel a timer. *)
Definition is_timer_call (c : Call) : bool :=
  match c with
  | SetTimer _ _ | CancelTimer _ => true
  | _ => false
  end.

(** A payload that is a dictionary, for the examples: [{"a": 1, "b": 2}]
    behind the reference [7]. *)
Definition ab_heap : Heap := <[7%positive := VDict [("a", VInt 1); ("b", VInt 2)]]> ∅.

Definition ab : Message.t := Message.__init__ "ab" 7%positive.











(** * Properties *)

(** ** The effect logs *)

Lemma extends_refl {A : Type} (l : list A) : extends l l.
Proof. exists []. by rewrite app_nil_r. Qed.

Lemma extends_trans {A : Type} (l1 l2 l3 : list A) :
  extends l1 l2 -> extends l2 l3 -> extends l1 l3.
Proof.
  intros [t1 ->] [t2 ->]. exists (t1 ++ t2)%list. by rewrite app_assoc.
Qed.

Lemma extends_app {A : Type} (l tail : list A) : extends l (l ++ tail)%list.
Proof. by exists tail. Qed.

Lemma extends_nth_error {A : Type} (l l' : list A) (i : nat) (x : A) :
  extends l l' -> nth_error l i = Some x -> nth_error l' i = Some x.
Proof.
  intros [tail ->] Hx. rewrite nth_error_app1; [done |].
  apply nth_error_Some. congruence.
Qed.

(** [send], case by case. *)
Lemma send_cases (h : Heap) (msg : Message.t) (to : PyVal) (c : Context.t) :
  Context.send h msg to c =
    match to with
    | VStr dest =>
        match deref (Message._data msg) h with
        | Ok data =>
            match json_dumps data with
            | Ok text => (with_sent c (Message.type msg, text, dest), Ok tt)
            | Raise e => (c, Raise e)
            end
        | Raise e => (c, Raise e)
        end
    | _ => (c, Raise TypeError)
    end.
Proof. destruct to; reflexivity. Qed.

(** [send_local], case by case. *)
Lemma send_local_cases (h : Heap) (msg : Message.t) (c : Context.t) :
  Context.send_local h msg c =
    match deref (Message._data msg) h with
    | Ok data =>
        match json_dumps data with
        | Ok text => (with_sent_local c (Message.type msg, text), Ok tt)
        | Raise e => (c, Raise e)
        end
    | Raise e => (c, Raise e)
    end.
Proof. reflexivity. Qed.

(** [set_timer], case by case. *)
Lemma set_timer_cases (timer_id delay : PyVal) (c : Context.t) :
  Context.set_timer timer_id delay c =
    match timer_id with
    | VStr id =>
        if isinstance_int_float delay
        then (with_timer_action c ("s", id, delay), Ok tt)
        else (c, Raise TypeError)
    | _ => (c, Raise TypeError)
    end.
Proof. destruct timer_id; try reflexivity. by destruct delay. Qed.

(** [cancel_timer], case by case. *)
Lemma cancel_timer_cases (timer_id : PyVal) (c : Context.t) :
  Context.cancel_timer timer_id c =
    match timer_id with
    | VStr id => (with_timer_action c ("c", id, VInt 0), Ok tt)
    | _ => (c, Raise TypeError)
    end.
Proof. unfold Context.cancel_timer. destruct timer_id; reflexivity. Qed.

Lemma grows_refl (c : Context.t) : grows c c.
Proof. repeat split; apply extends_refl. Qed.

Lemma grows_trans (c1 c2 c3 : Context.t) : grows c1 c2 -> grows c2 c3 -> grows c1 c3.
Proof.
  intros (Ht & Hs & Hl & Ha) (Ht' & Hs' & Hl' & Ha').
  repeat split; [congruence | | |]; eapply extends_trans; eassumption.
Qed.

Lemma grows_with_sent (c : Context.t) entry : grows c (with_sent c entry).
Proof. repeat split; cbn; auto using extends_refl, extends_app. Qed.

Lemma grows_with_sent_local (c : Context.t) entry : grows c (with_sent_local c entry).
Proof. repeat split; cbn; auto using extends_refl, extends_app. Qed.

Lemma grows_with_timer_action (c : Context.t) entry :
  grows c (with_timer_action c entry).
Proof. repeat split; cbn; auto using extends_refl, extends_app. Qed.

Create HintDb ctx.

#[local] Hint Resolve grows_refl grows_with_sent grows_with_sent_local
  grows_with_timer_action : ctx.

(** A call on a message leaves the context alone. *)
Lemma on_heap_ctx {A : Type} (m : Eff Heap A) (w : World) :
  ctx (fst (on_heap m w)) = ctx w.
Proof. unfold on_heap. by destruct (m (heap w)). Qed.

Lemma on_heap_then_ctx {A : Type} (m : Eff Heap A) (w : World) :
  ctx (fst ((on_heap m ;;; ret tt) w)) = ctx w.
Proof.
  unfold bind, on_heap. destruct (m (heap w)) as [h [a | e]]; reflexivity.
Qed.

(** A call on the context leaves the store alone. *)
Lemma on_ctx_heap {A : Type} (m : Heap -> Eff Context.t A) (w : World) :
  heap (fst (on_ctx m w)) = heap w.
Proof. unfold on_ctx. by destruct (m (heap w) (ctx w)). Qed.

(** The context after a call, in terms of the context before. *)
Lemma step_ctx (w : World) (c : Call) :
  ctx (step w c) =
    match c with
    | Send msg to => fst (Context.send (heap w) msg to (ctx w))
    | SendLocal msg => fst (Context.send_local (heap w) msg (ctx w))
    | SetTimer timer_id delay => fst (Context.set_timer timer_id delay (ctx w))
    | CancelTimer timer_id => fst (Context.cancel_timer timer_id (ctx w))
    | _ => ctx w
    end.
Proof.
  unfold step.
  destruct c; cbn [call];
    try apply on_heap_ctx; try apply on_heap_then_ctx;
    try (unfold on_ctx;
         match goal with
         | |- context [let '(_, _) := ?m in _] => by destruct m
         end).
  reflexivity.
Qed.

(** Every call grows the context: the time stays, the logs are appended to. *)
Lemma step_grows (w : World) (c : Call) : grows (ctx w) (ctx (step w c)).
Proof.
  rewrite step_ctx. destruct c; auto with ctx.
  - rewrite send_cases. destruct to; cbn; auto with ctx.
    destruct (deref _ _); cbn; auto with ctx.
    destruct (json_dumps _); cbn; auto with ctx.
  - rewrite send_local_cases.
    destruct (deref _ _); cbn; auto with ctx.
    destruct (json_dumps _); cbn; auto with ctx.
  - rewrite set_timer_cases. destruct timer_id; cbn; auto with ctx.
    destruct (isinstance_int_float delay); cbn; auto with ctx.
  - rewrite cancel_timer_cases. destruct timer_id; cbn; auto with ctx.
Qed.

Lemma run_grows (calls : list Call) (w : World) :
  grows (ctx w) (ctx (run calls w)).
Proof.
  revert w. induction calls as [| c calls IH]; intros w; cbn.
  - apply grows_refl.
  - eapply grows_trans; [apply step_grows | apply IH].
Qed.

(** Every call keeps the timer-action log in shape. *)
Lemma step_timer_actions_shaped (w : World) (c : Call) :
  Forall timer_action_shaped (Context._timer_actions (ctx w)) ->
  Forall timer_action_shaped (Context._timer_actions (ctx (step w c))).
Proof.
  intros Hw. rewrite step_ctx. destruct c; try assumption.
  - rewrite send_cases. destruct to; cbn; try assumption.
    destruct (deref _ _); cbn; try assumption.
    destruct (json_dumps _); cbn; assumption.
  - rewrite send_local_cases.
    destruct (deref _ _); cbn; try assumption.
    destruct (json_dumps _); cbn; assumption.
  - rewrite set_timer_cases. destruct timer_id; cbn; try assumption.
    destruct (isinstance_int_float delay) eqn:Hd; cbn; try assumption.
    apply Forall_app; split; [assumption |].
    constructor; [| constructor]. left. by split.
  - rewrite cancel_timer_cases. destruct timer_id; cbn; try assumption.
    apply Forall_app; split; [assumption |].
    constructor; [| constructor]. right. by split.
Qed.

Lemma run_timer_actions_shaped (calls : list Call) (w : World) :
  Forall timer_action_shaped (Context._timer_actions (ctx w)) ->
  Forall timer_action_shaped (Context._timer_actions (ctx (run calls w))).
Proof.
  revert w. induction calls as [| c calls IH]; intros w Hw; cbn; [assumption |].
  apply IH. by apply step_timer_actions_shaped.
Qed.

(** ** The encoder *)

(** Induction on a value, with the hypothesis for every item of a list and
    every value of a dictionary. *)
Lemma PyVal_ind (P : PyVal -> Prop) :
  P VNone ->
  (forall b, P (VBool b)) ->
  (forall z, P (VInt z)) ->
  (forall f, P (VFloat f)) ->
  (forall s, P (VStr s)) ->
  (forall items, Forall P items -> P (VList items)) ->
  (forall items, Forall (fun kv => P (snd kv)) items -> P (VDict items)) ->
  (forall id, P (VObj id)) ->
  forall v, P v.
Proof.
  intros HNone HBool HInt HFloat HStr HList HDict HObj.
  fix IH 1. intros [| b | z | f | s | items | items | id].
  - exact HNone.
  - apply HBool.
  - apply HInt.
  - apply HFloat.
  - apply HStr.
  - apply HList. induction items as [| x items IHitems]; constructor.
    + apply IH.
    + exact IHitems.
  - apply HDict. induction items as [| [k x] items IHitems]; constructor.
    + apply IH.
    + exact IHitems.
  - apply HObj.
Qed.

Lemma traverse_Ok {A B : Type} (f : A -> outcome B) (l : list A) :
  Forall (fun x => returns (f x)) l -> returns (traverse f l).
Proof.
  induction 1 as [| x l [y Hy] _ [ys Hys]]; cbn.
  - by exists [].
  - rewrite Hy, Hys. by eexists.
Qed.

Lemma traverse_Raise {A B : Type} (f : A -> outcome B) (l : list A) (e : exn) :
  traverse f l = Raise e -> Exists (fun x => f x = Raise e) l.
Proof.
  induction l as [| x l IH]; cbn; [discriminate |].
  destruct (f x) as [y | e'] eqn:Hx.
  - destruct (traverse f l); [discriminate |].
    intros [= ->]. right. by apply IH.
  - intros [= ->]. by left.
Qed.

(** The encoder returns on the values it has an encoding for ... *)
Lemma json_dumps_representable (o : PyVal) :
  json_representable o = true -> returns (json_dumps o).
Proof.
  unfold json_dumps.
  induction o as [| [] | | | | items IH | items IH |] using PyVal_ind;
    cbn; intros Hrep; try discriminate; try (by eexists).
  - destruct (traverse_Ok json_encode items) as [chunks ->]; [| by eexists].
    rewrite forallb_forall in Hrep.
    rewrite Forall_forall in IH |- *.
    intros x Hx. apply IH; [done |]. by apply Hrep, list_elem_of_In.
  - destruct (traverse_Ok
                (fun '(k, x) => item_chunk k (json_encode x)) items)
      as [chunks ->]; [| by eexists].
    rewrite forallb_forall in Hrep.
    rewrite Forall_forall in IH |- *.
    intros [k x] Hx.
    destruct (IH (k, x) Hx) as [s Hs].
    { apply (Hrep (k, x)). by apply list_elem_of_In. }
    cbn in Hs. rewrite Hs. by eexists.
Qed.

Lemma traverse_Ok_inv {A B : Type} (f : A -> outcome B) (l : list A) (ys : list B) :
  traverse f l = Ok ys -> Forall (fun x => returns (f x)) l.
Proof.
  revert ys. induction l as [| x l IH]; cbn; intros ys Hys; [constructor |].
  destruct (f x) as [y |] eqn:Hx; [| discriminate].
  destruct (traverse f l) as [ys' |]; [| discriminate].
  constructor; [by exists y | by eapply IH].
Qed.

(** ... on no other value ... *)
Lemma json_dumps_returns (o : PyVal) :
  returns (json_dumps o) -> json_representable o = true.
Proof.
  unfold json_dumps.
  induction o as [| | | | | items IH | items IH |] using PyVal_ind;
    cbn; intros [text Htext]; try reflexivity; try discriminate.
  - destruct (traverse json_encode items) as [chunks |] eqn:Ht; [| discriminate].
    apply traverse_Ok_inv in Ht.
    rewrite forallb_forall. rewrite Forall_forall in IH, Ht.
    intros x Hx%list_elem_of_In. auto.
  - destruct (traverse _ items) as [chunks |] eqn:Ht; [| discriminate].
    apply traverse_Ok_inv in Ht.
    rewrite forallb_forall. rewrite Forall_forall in IH, Ht.
    intros [k x] Hx%list_elem_of_In. apply (IH (k, x) Hx).
    destruct (Ht (k, x) Hx) as [chunk Hchunk]. unfold item_chunk in Hchunk.
    cbn. destruct (json_encode x) as [sx |]; [by exists sx | discriminate].
Qed.

(** ... and the only exception it raises is [TypeError]. *)
Lemma json_dumps_raises (o : PyVal) (e : exn) :
  json_dumps o = Raise e -> e = TypeError.
Proof.
  unfold json_dumps. revert e.
  induction o as [| [] | | | | items IH | items IH |] using PyVal_ind;
    cbn; intros e He; try discriminate.
  - destruct (traverse json_encode items) as [chunks | e'] eqn:Ht; [discriminate |].
    injection He as ->.
    apply traverse_Raise, Exists_exists in Ht as (x & Hx & Hex).
    rewrite Forall_forall in IH. eapply IH; eassumption.
  - destruct (traverse _ items) as [chunks | e'] eqn:Ht; [discriminate |].
    injection He as ->.
    apply traverse_Raise, Exists_exists in Ht as ([k x] & Hx & Hex).
    rewrite Forall_forall in IH. apply (IH (k, x) Hx). cbn.
    unfold item_chunk in Hex. by destruct (json_encode x).
  - by injection He.
Qed.

Lemma json_dumps_not_representable (o : PyVal) :
  json_representable o = false -> json_dumps o = Raise TypeError.
Proof.
  intros Hrep. destruct (json_dumps o) as [s | e] eqn:Ho.
  - assert (Htrue : json_representable o = true).
    { apply json_dumps_returns. rewrite Ho. by exists s. }
    congruence.
  - by rewrite (json_dumps_raises o e Ho).
Qed.

(** The texts of some floats, as [repr] gives them. *)
Example float_repr_sample :
  map float_repr
    [float_of_decimal false 100 (-1); float_of_decimal true 25 (-1);
     float_of_decimal false 1 (-1); float_of_decimal false 1 16;
     float_of_decimal false 1 15; float_of_decimal false 1 (-5);
     float_of_decimal false 49 (-325); float_of_decimal false 3 0;
     float_of_decimal false 17976931348623157 292]
  = ["10.0"; "-2.5"; "0.1"; "1e+16"; "1000000000000000.0"; "1e-05";
     "5e-324"; "3.0"; "1.7976931348623157e+308"].
Proof. vm_compute. reflexivity. Qed.

(** A value and its text. *)
Example json_dumps_sample :
  json_dumps
    (VDict [("a", VList [VInt 1; VFloat (float_of_decimal false 25 (-1));
                         VBool true; VNone]);
            ("b", VStr "x")])
  = Ok ("{" ++ quote ++ "a" ++ quote ++ ": [1, 2.5, true, null], "
            ++ quote ++ "b" ++ quote ++ ": " ++ quote ++ "x" ++ quote ++ "}").
Proof. vm_compute. reflexivity. Qed.

(** A text and its value: the later of two equal keys wins, at the place of
    the first. *)
Example json_loads_sample :
  json_loads (" {" ++ quote ++ "a" ++ quote ++ ": [1, 2.5, true, null], "
                   ++ quote ++ "b" ++ quote ++ ": {}, "
                   ++ quote ++ "a" ++ quote ++ ": -0.0} ")
  = Ok (VDict [("a", VFloat (S754_zero true)); ("b", VDict [])]).
Proof. vm_compute. reflexivity. Qed.

(** ** Dictionaries *)

Lemma dict_get_Some (d : Dict) (key : string) (value : PyVal) :
  dict_get d key = Some value -> In (key, value) d.
Proof.
  induction d as [| [k v] d IH]; cbn; [discriminate |].
  destruct (String.eqb_spec k key) as [-> | Hne].
  - intros [= ->]. by left.
  - intros H. right. by apply IH.
Qed.


Lemma dict_set_keys (d : Dict) (key : string) (value : PyVal) :
  map fst (dict_set d key value) =
    if bool_decide (key ∈ map fst d) then map fst d else (map fst d ++ [key])%list.
Proof.
  induction d as [| [k v] d IH]; cbn.
  - rewrite bool_decide_eq_false_2; [done | apply not_elem_of_nil].
  - destruct (String.eqb_spec k key) as [-> | Hne]; cbn.
    + rewrite bool_decide_eq_true_2; [done | apply list_elem_of_here].
    + rewrite IH. destruct (bool_decide_reflect (key ∈ map fst d)) as [Hin | Hin].
      * rewrite bool_decide_eq_true_2; [done | by apply list_elem_of_further].
      * rewrite bool_decide_eq_false_2; [done |].
        rewrite elem_of_cons. intros [-> | ?]; contradiction.
Qed.

Lemma dict_set_NoDup (d : Dict) (key : string) (value : PyVal) :
  NoDup (map fst d) -> NoDup (map fst (dict_set d key value)).
Proof.
  intros Hd. rewrite dict_set_keys.
  destruct (bool_decide_reflect (key ∈ map fst d)) as [Hin | Hin]; [done |].
  apply NoDup_app. repeat split; [done | | apply NoDup_singleton].
  by intros k Hk ->%list_elem_of_singleton.
Qed.

Lemma dict_set_Forall (P : PyVal -> Prop) (d : Dict) (key : string) (value : PyVal) :
  Forall (fun kv => P (snd kv)) d -> P value ->
  Forall (fun kv => P (snd kv)) (dict_set d key value).
Proof.
  intros Hd Hv. induction Hd as [| [k v] d Hkv Hd IH]; cbn.
  - by repeat constructor.
  - destruct (String.eqb k key); constructor; auto.
Qed.

Lemma dict_get_set (d : Dict) (key key' : string) (value : PyVal) :
  dict_get (dict_set d key value) key' =
    if String.eqb key key' then Some value else dict_get d key'.
Proof.
  induction d as [| [k v] d IH]; cbn.
  - by destruct (String.eqb key key').
  - destruct (String.eqb_spec k key) as [-> | Hne]; cbn.
    + by destruct (String.eqb key key').
    + rewrite IH. destruct (String.eqb_spec k key') as [-> | Hne'];
        [| done].
      destruct (String.eqb_spec key key'); congruence.
Qed.

Lemma dict_of_pairs_invariant (P : PyVal -> Prop) (pairs : list (string * PyVal)) :
  Forall (fun kv => P (snd kv)) pairs ->
  NoDup (map fst (dict_of_pairs pairs))
  /\ Forall (fun kv => P (snd kv)) (dict_of_pairs pairs).
Proof.
  unfold dict_of_pairs.
  assert (Hgen : forall d : Dict,
    NoDup (map fst d) -> Forall (fun kv => P (snd kv)) d ->
    Forall (fun kv => P (snd kv)) pairs ->
    NoDup (map fst (fold_left (fun d kv => dict_set d (fst kv) (snd kv)) pairs d))
    /\ Forall (fun kv => P (snd kv))
         (fold_left (fun d kv => dict_set d (fst kv) (snd kv)) pairs d)).
  { induction pairs as [| [k v] pairs IH]; intros d Hnd Hd Hps; cbn; [done |].
    apply Forall_cons in Hps as [Hv Hps].
    apply IH; [by apply dict_set_NoDup | by apply dict_set_Forall | done]. }
  intros Hps. apply Hgen; [constructor | constructor | done].
Qed.

(** ** The decoder *)













Lemma is_json_VList (items : list PyVal) :
  is_json (VList items) = true <-> Forall (fun x => is_json x = true) items.
Proof. cbn. rewrite forallb_forall, Forall_forall. by setoid_rewrite list_elem_of_In. Qed.

Lemma is_json_VDict (items : Dict) :
  is_json (VDict items) = true <->
  NoDup (map fst items) /\ Forall (fun kv => is_json (snd kv) = true) items.
Proof.
  cbn. rewrite andb_true_iff, bool_decide_eq_true, forallb_forall, Forall_forall.
  setoid_rewrite list_elem_of_In.
  split; intros [Hnd Hall]; (split; [done |]); intros [k x] Hx; apply (Hall (k, x) Hx).
Qed.

Lemma is_json_representable (o : PyVal) :
  is_json o = true -> json_representable o = true.
Proof.
  induction o as [| | | | | items IH | items IH |] using PyVal_ind;
    try done.
  - rewrite is_json_VList. cbn. rewrite forallb_forall.
    rewrite !Forall_forall in *. intros Hall x Hx%list_elem_of_In. auto.
  - rewrite is_json_VDict. cbn. rewrite forallb_forall.
    rewrite !Forall_forall in *. intros [_ Hall] [k x] Hx%list_elem_of_In.
    apply (IH (k, x) Hx), (Hall (k, x) Hx).
Qed.

Lemma match_number_is_json (s : string) (v : PyVal) (rest : string) :
  match_number s = Some (v, rest) -> is_json v = true.
Proof.
  unfold match_number, number_value.
  repeat case_match; intros; simplify_eq; reflexivity.
Qed.

(** Every value the scanner builds is a JSON value. *)
Lemma scan_is_json (fuel : nat) :
  (forall s v rest, scan_once fuel s = Scanned v rest -> is_json v = true)
  /\ (forall s acc v rest,
        Forall (fun x => is_json x = true) acc ->
        array_items fuel s acc = Scanned v rest -> is_json v = true)
  /\ (forall s acc v rest,
        Forall (fun kv => is_json (snd kv) = true) acc ->
        object_items fuel s acc = Scanned v rest -> is_json v = true).
Proof.
  induction fuel as [| fuel (IHscan & IHarray & IHobject)].
  - repeat split; intros; discriminate.
  - repeat split.
    + intros [| c s'] v rest; [discriminate |]. cbn [scan_once].
      destruct (Ascii.eqb c "034"%char).
      { destruct (scanstring s') as [[str r] |]; [| discriminate]. by intros [= <- _]. }
      destruct (Ascii.eqb c "{"%char).
      { cbv zeta. destruct (strip_prefix "}" _); [by intros [= <- _] |].
        apply IHobject. constructor. }
      destruct (Ascii.eqb c "["%char).
      { cbv zeta. destruct (strip_prefix "]" _); [by intros [= <- _] |].
        apply IHarray. constructor. }
      repeat case_match; intros; simplify_eq; try reflexivity.
      by eapply match_number_is_json.
    + intros s acc v rest Hacc. cbn [array_items].
      destruct (scan_once fuel s) as [value r | |] eqn:Hv; try discriminate.
      apply IHscan in Hv. cbv zeta.
      destruct (strip_prefix "]" _).
      { intros [= <- _]. apply is_json_VList, Forall_app.
        split; [by apply Forall_rev | by repeat constructor]. }
      destruct (strip_prefix "," _); [| discriminate].
      apply IHarray. by constructor.
    + intros s acc v rest Hacc. cbn [object_items].
      destruct (strip_prefix quote s) as [s1 |]; [| discriminate].
      destruct (scanstring s1) as [[key r] |]; [| discriminate].
      destruct (strip_prefix ":" _) as [r1 |]; [| discriminate].
      destruct (scan_once fuel _) as [value r2 | |] eqn:Hv; try discriminate.
      apply IHscan in Hv. cbv zeta.
      destruct (strip_prefix "}" _).
      { intros [= <- _]. apply is_json_VDict.
        apply (dict_of_pairs_invariant (fun x => is_json x = true)).
        apply Forall_app. split; [by apply Forall_rev | by repeat constructor]. }
      destruct (strip_prefix "," _); [| discriminate].
      apply IHobject. by constructor.
Qed.

Lemma json_loads_is_json (s : string) (obj : PyVal) :
  json_loads s = Ok obj -> is_json obj = true.
Proof.
  unfold json_loads.
  destruct (scan_once _ _) as [v rest | |] eqn:Hv; try discriminate.
  destruct (skip_whitespace rest); [| discriminate].
  intros [= <-].
  destruct (scan_is_json (scan_budget (skip_whitespace s))) as (Hscan & _ & _).
  by eapply Hscan.
Qed.

(** ** Messages *)

(** An identity handed out by [alloc] was not in use. *)
Lemma fresh_not_allocated (h : Heap) : h !! fresh (dom h) = None.
Proof. apply not_elem_of_dom, is_fresh. Qed.

(** [from_json], case by case. *)
Lemma from_json_cases (message_type json_str : string) (h : Heap) :
  Message.from_json message_type json_str h =
    match json_loads json_str with
    | Ok obj =>
        (<[fresh (dom h) := obj]> h,
         Ok (Message.__init__ message_type (fresh (dom h))))
    | Raise e => (h, Raise e)
    end.
Proof.
  unfold Message.from_json, bind, lift, alloc, ret.
  by destruct (json_loads json_str).
Qed.

(** [__getitem__] on a message whose payload is a dictionary. *)
Lemma getitem_dict (msg : Message.t) (key : string) (h : Heap) (items : Dict) :
  h !! Message._data msg = Some (VDict items) ->
  Message.__getitem__ msg key h =
    match dict_get items key with
    | Some value => (h, Ok value)
    | None => (h, Raise KeyError)
    end.
Proof.
  intros Hdata. unfold Message.__getitem__, bind, get_state, lift, deref.
  rewrite Hdata. by destruct (dict_get items key).
Qed.

(** [__setitem__] on a message whose payload is a dictionary. *)
Lemma setitem_dict (msg : Message.t) (key : string) (value : PyVal) (h : Heap)
  (items : Dict) :
  h !! Message._data msg = Some (VDict items) ->
  Message.__setitem__ msg key value h =
    (<[Message._data msg := VDict (dict_set items key value)]> h, Ok tt).
Proof.
  intros Hdata. unfold Message.__setitem__, bind, get_state, lift, deref.
  by rewrite Hdata.
Qed.

(** [remove] on a message whose payload is a dictionary. *)
Lemma remove_dict (msg : Message.t) (key : string) (h : Heap) (items : Dict) :
  h !! Message._data msg = Some (VDict items) ->
  Message.remove msg key h =
    (<[Message._data msg := VDict (dict_pop items key)]> h, Ok tt).
Proof.
  intros Hdata. unfold Message.remove, bind, get_state, lift, deref.
  by rewrite Hdata.
Qed.


(** Scheduling a list of timers, one [set_timer] call each. *)
Lemma run_set_timers
  (timers : list (string * PyVal)) (w : World) :
  Forall (fun t => isinstance_int_float (snd t) = true) timers ->
  ctx (run (map (fun t => SetTimer (VStr (fst t)) (snd t)) timers) w)
  = with_timers_set (ctx w) timers.
Proof.
  intros Hnum. revert w.
  induction Hnum as [| [id delay] timers Hd _ IH]; intros w; cbn [map run fold_left].
  - unfold with_timers_set. cbn. rewrite app_nil_r. by destruct (ctx w).
  - change (fold_left (step) ?l ?w0) with (run l w0).
    rewrite IH, step_ctx, set_timer_cases. cbn in Hd |- *. rewrite Hd.
    unfold with_timers_set. cbn. by rewrite <- app_assoc.
Qed.

(** ** The claims *)



(** The scenario of the specification, and a mutation behind it: the entry
    of the send log keeps the text of the payload as it was at the call,
    while the payload itself has changed. *)
Example send_then_mutate :
  let w := run
             [Send ping (VStr "node2"); SetTimer (VStr "t1") five;
              SetItem ping "k" (VInt 3)]
             {| heap := ping_heap; ctx := at_ten |} in
  Context._sent_messages (ctx w) = [("ping", "{}", "node2")]
  /\ Context._sent_local_messages (ctx w) = []
  /\ Context._timer_actions (ctx w) = [("s", "t1", five)]
  /\ heap w !! Message._data ping = Some (VDict [("k", VInt 3)])
  /\ json_dumps (VDict [("k", VInt 3)])
     = Ok ("{" ++ quote ++ "k" ++ quote ++ ": 3}").
Proof. repeat split. Qed.

(** C2. [rand] draws from the one generator of the [random] module: its
    result is [random.uniform(0, 1)] on the generator's current state, the
    same for every context, and the state it leaves is the generator's.
    Nothing of the context (which is built from a time alone) enters. *)
Theorem rand_ignores_context (RandomState : Type)
  (random_uniform : PyVal -> PyVal -> RandomState -> RandomState * PyVal)
  (c1 c2 : Context.t) (g : RandomState) :
  Context.rand RandomState random_uniform c1 g = random_uniform (VInt 0) (VInt 1) g
  /\ Context.rand RandomState random_uniform c1 g
     = Context.rand RandomState random_uniform c2 g.
Proof. split; reflexivity. Qed.



(** The parsing scenario of the specification. *)
Example parse_then_get :
  let text := "{" ++ quote ++ "x" ++ quote ++ ":1}" in
  let '(h, o) := Message.from_json "req" text ∅ in
  (exists msg, o = Ok msg /\ Message.__getitem__ msg "x" h = (h, Ok (VInt 1)))
  /\ Message.from_json "req" "not json" ∅ = (∅, Raise JSONDecodeError).
Proof. split; [eexists; split; reflexivity | reflexivity]. Qed.

(** C4. [set_timer] with a string identifier and a numeric delay appends
    exactly one schedule entry carrying that identifier and that delay;
    a sequence of such calls appends its entries in call order, one per call,
    also when an identifier repeats; and every entry of the timer-action log
    of an invocation is a schedule (opcode ["s"]) with a numeric delay or a
    cancellation (opcode ["c"]) with delay [0]. *)
Theorem set_timer_appends_in_call_order
  (c : Context.t) (timer_id : string) (delay : PyVal)
  (w : World) (timers : list (string * PyVal))
  (time : PyVal) (h : Heap) (calls : list Call) :
  isinstance_int_float delay = true ->
  Forall (fun t => isinstance_int_float (snd t) = true) timers ->
  Context.set_timer (VStr timer_id) delay c
  = (with_timer_action c ("s", timer_id, delay), Ok tt)
  /\ ctx (run (map (fun t => SetTimer (VStr (fst t)) (snd t)) timers) w)
     = with_timers_set (ctx w) timers
  /\ Forall timer_action_shaped
       (Context._timer_actions
          (ctx (run calls {| heap := h; ctx := Context.__init__ time |}))).
Proof.
  intros Hdelay Htimers. repeat split.
  - rewrite set_timer_cases. by rewrite Hdelay.
  - by apply run_set_timers.
  - apply run_timer_actions_shaped. constructor.
Qed.

Lemma set_timer_appends_in_call_order_witness :
  isinstance_int_float five = true
  /\ Forall (fun t => isinstance_int_float (snd t) = true)
       [("t1", VInt 5); ("t2", five); ("t1", VInt 7)]
  /\ Context.set_timer (VStr "t1") five at_ten
     = (with_timer_action at_ten ("s", "t1", five), Ok tt)
  /\ ctx (run
            (map (fun t => SetTimer (VStr (fst t)) (snd t))
               [("t1", VInt 5); ("t2", five); ("t1", VInt 7)])
            {| heap := ping_heap; ctx := at_ten |})
     = with_timers_set at_ten [("t1", VInt 5); ("t2", five); ("t1", VInt 7)]
  /\ Forall timer_action_shaped
       (Context._timer_actions
          (ctx (run [SetTimer (VStr "t1") five; CancelTimer (VStr "t9")]
                  {| heap := ping_heap; ctx := Context.__init__ ten |}))).
Proof.
  split; [reflexivity |].
  assert (Hnum : Forall (fun t : string * PyVal => isinstance_int_float (snd t) = true)
                   [("t1", VInt 5); ("t2", five); ("t1", VInt 7)]).
  { repeat constructor. }
  split; [exact Hnum |].
  exact (set_timer_appends_in_call_order at_ten "t1" five
           {| heap := ping_heap; ctx := at_ten |}
           [("t1", VInt 5); ("t2", five); ("t1", VInt 7)]
           ten ping_heap [SetTimer (VStr "t1") five; CancelTimer (VStr "t9")]
           eq_refl Hnum).
Defined.

(** C5. [cancel_timer] with a string identifier appends a cancellation
    whatever the log holds: on any context, and so on a new one, whose log
    has no schedule entry at all. *)
Theorem cancel_timer_unconditional (c : Context.t) (time : PyVal) (timer_id : string) :
  Context.cancel_timer (VStr timer_id) c
  = (with_timer_action c ("c", timer_id, VInt 0), Ok tt)
  /\ Context._timer_actions
       (fst (Context.cancel_timer (VStr timer_id) (Context.__init__ time)))
     = [("c", timer_id, VInt 0)].
Proof. split; reflexivity. Qed.



(** C7. [set_timer] raises [TypeError] whenever the identifier is not a
    string or the delay is not a number, and checks nothing else of the
    delay: a negative integer and any float (negative, infinite, not a
    number) are scheduled as given. *)
Theorem set_timer_type_check (c : Context.t) :
  (forall timer_id delay, isinstance_str timer_id = false ->
     Context.set_timer timer_id delay c = (c, Raise TypeError))
  /\ (forall timer_id delay, isinstance_int_float delay = false ->
        Context.set_timer timer_id delay c = (c, Raise TypeError))
  /\ (forall timer_id z, (z < 0)%Z ->
        Context.set_timer (VStr timer_id) (VInt z) c
        = (with_timer_action c ("s", timer_id, VInt z), Ok tt))
  /\ (forall timer_id f,
        Context.set_timer (VStr timer_id) (VFloat f) c
        = (with_timer_action c ("s", timer_id, VFloat f), Ok tt)).
Proof.
  repeat split.
  - intros timer_id delay Hid. rewrite set_timer_cases. by destruct timer_id.
  - intros timer_id delay Hdelay. rewrite set_timer_cases, Hdelay. by destruct timer_id.
Qed.

Lemma set_timer_type_check_witness :
  isinstance_str (VInt 1) = false
  /\ Context.set_timer (VInt 1) five at_ten = (at_ten, Raise TypeError)
  /\ isinstance_int_float (VStr "soon") = false
  /\ Context.set_timer (VStr "t1") (VStr "soon") at_ten = (at_ten, Raise TypeError)
  /\ (-5 < 0)%Z
  /\ Context.set_timer (VStr "t1") (VInt (-5)) at_ten
     = (with_timer_action at_ten ("s", "t1", VInt (-5)), Ok tt).
Proof.
  destruct (set_timer_type_check at_ten) as (Hid & Hdelay & Hneg & _).
  split; [reflexivity |]. split; [apply Hid; reflexivity |].
  split; [reflexivity |]. split; [apply Hdelay; reflexivity |].
  split; [lia |]. apply Hneg. lia.
Defined.

(** C8. [time()] is the value the context was constructed with, after any
    sequence of calls of the node; more generally no call changes it. *)
Theorem time_is_fixed (t : PyVal) (h : Heap)
  (w : World) (calls : list Call) :
  Context.time (ctx (run calls {| heap := h; ctx := Context.__init__ t |})) = t
  /\ Context.time (ctx (run calls w)) = Context.time (ctx w).
Proof.
  unfold Context.time. split.
  - by destruct (run_grows calls {| heap := h; ctx := Context.__init__ t |})
      as (-> & _).
  - by destruct (run_grows calls w) as (Ht & _).
Qed.

(** C9. Error atomicity: when [send], [set_timer] or [cancel_timer] raises
    (a [TypeError], or any other exception), the context it leaves is the
    context it found: the three logs are as they were. *)
Theorem raise_leaves_context (h : Heap)
  (c c' : Context.t) (e : exn) :
  (forall msg to, Context.send h msg to c = (c', Raise e) -> c' = c)
  /\ (forall timer_id delay,
        Context.set_timer timer_id delay c = (c', Raise e) -> c' = c)
  /\ (forall timer_id, Context.cancel_timer timer_id c = (c', Raise e) -> c' = c).
Proof.
  repeat split.
  - intros msg to. rewrite send_cases.
    destruct to; try (by intros [= <-]).
    destruct (deref _ h); [| by intros [= <-]].
    destruct (json_dumps _); [discriminate | by intros [= <-]].
  - intros timer_id delay. rewrite set_timer_cases.
    destruct timer_id; try (by intros [= <-]).
    destruct (isinstance_int_float delay); [discriminate | by intros [= <-]].
  - intros timer_id. rewrite cancel_timer_cases.
    destruct timer_id; by intros [= <-].
Qed.

Lemma raise_leaves_context_witness :
  Context.send ping_heap ping (VInt 2) at_ten = (at_ten, Raise TypeError)
  /\ Context.set_timer (VStr "t1") (VStr "soon") at_ten = (at_ten, Raise TypeError)
  /\ Context.cancel_timer VNone at_ten = (at_ten, Raise TypeError)
  /\ at_ten = at_ten.
Proof.
  destruct (raise_leaves_context ping_heap at_ten at_ten TypeError)
    as (Hsend & Hset & Hcancel).
  split; [reflexivity |]. split; [reflexivity |]. split; [reflexivity |].
  apply (Hsend ping (VInt 2)). reflexivity.
Defined.

(** C10. A boolean passes the numeric check of [set_timer]: with a string
    identifier the call returns and appends [("s", timer_id, b)]. *)
Theorem set_timer_accepts_bool (c : Context.t) (timer_id : string) (b : bool) :
  isinstance_int_float (VBool b) = true
  /\ Context.set_timer (VStr timer_id) (VBool b) c
     = (with_timer_action c ("s", timer_id, VBool b), Ok tt).
Proof. split; reflexivity. Qed.

(** * Further properties *)

(** ** Dictionaries: removal *)

Lemma dict_get_None (d : Dict) (key : string) :
  dict_get d key = None <-> key ∉ map fst d.
Proof.
  induction d as [| [k v] d IH]; cbn.
  - split; [intros _; apply not_elem_of_nil | done].
  - rewrite not_elem_of_cons.
    destruct (String.eqb_spec k key) as [-> | Hne].
    + split; [discriminate | intros [Hne _]; congruence].
    + rewrite IH. split; [intros Hd; split; [congruence | done] | by intros [_ Hd]].
Qed.

Lemma dict_pop_absent (d : Dict) (key : string) :
  dict_get d key = None -> dict_pop d key = d.
Proof.
  induction d as [| [k v] d IH]; cbn; [done |].
  destruct (String.eqb k key); [discriminate |].
  intros Hd. by rewrite IH.
Qed.

Lemma dict_get_pop_ne (d : Dict) (key other : string) :
  other <> key -> dict_get (dict_pop d key) other = dict_get d other.
Proof.
  intros Hne. induction d as [| [k v] d IH]; cbn; [done |].
  destruct (String.eqb_spec k key) as [-> | Hk]; cbn.
  - destruct (String.eqb_spec key other); congruence.
  - by rewrite IH.
Qed.

Lemma dict_get_pop (d : Dict) (key : string) :
  NoDup (map fst d) -> dict_get (dict_pop d key) key = None.
Proof.
  induction d as [| [k v] d IH]; cbn; [done |].
  rewrite NoDup_cons. intros [Hk Hd].
  destruct (String.eqb_spec k key) as [-> | Hne]; cbn.
  - by apply dict_get_None.
  - destruct (String.eqb_spec k key); [congruence | by apply IH].
Qed.

Lemma dict_pop_subset (d : Dict) (key k : string) :
  k ∈ map fst (dict_pop d key) -> k ∈ map fst d.
Proof.
  induction d as [| [k' v] d IH]; cbn; [done |].
  destruct (String.eqb k' key); cbn.
  - apply list_elem_of_further.
  - rewrite !elem_of_cons. intros [-> | Hk]; [by left | right; by apply IH].
Qed.

Lemma dict_pop_NoDup (d : Dict) (key : string) :
  NoDup (map fst d) -> NoDup (map fst (dict_pop d key)).
Proof.
  induction d as [| [k v] d IH]; cbn; [done |].
  rewrite NoDup_cons. intros [Hk Hd].
  destruct (String.eqb k key); cbn; [done |].
  apply NoDup_cons. split; [| by apply IH].
  intros Hin. by apply Hk, (dict_pop_subset d key).
Qed.

(** ** Messages: reading, writing, removing *)

(** X1. Writing then reading: after [msg[key] = value] on a dictionary
    payload the write returned, [msg[key]] is [value], and [msg[other]] for
    any other key gives what it gave before (its value, or [KeyError]). *)
Theorem setitem_then_getitem (msg : Message.t) (key other : string) (value : PyVal)
  (h : Heap) (items : Dict) :
  h !! Message._data msg = Some (VDict items) ->
  other <> key ->
  let h' := fst (Message.__setitem__ msg key value h) in
  snd (Message.__setitem__ msg key value h) = Ok tt
  /\ Message.__getitem__ msg key h' = (h', Ok value)
  /\ snd (Message.__getitem__ msg other h') = snd (Message.__getitem__ msg other h).
Proof.
  intros Hdata Hne h'. subst h'.
  rewrite (setitem_dict msg key value h items Hdata). cbn [fst snd].
  split; [reflexivity |].
  rewrite !(getitem_dict msg _ _ (dict_set items key value)) by apply lookup_insert_eq.
  rewrite (getitem_dict msg other h items Hdata).
  rewrite !dict_get_set, String.eqb_refl.
  split; [reflexivity |].
  destruct (String.eqb_spec key other) as [-> | _]; [congruence |].
  by destruct (dict_get items other).
Qed.

Lemma setitem_then_getitem_witness :
  ab_heap !! Message._data ab = Some (VDict [("a", VInt 1); ("b", VInt 2)])
  /\ "b" <> "a"
  /\ let h' := fst (Message.__setitem__ ab "a" (VStr "x") ab_heap) in
     snd (Message.__setitem__ ab "a" (VStr "x") ab_heap) = Ok tt
     /\ Message.__getitem__ ab "a" h' = (h', Ok (VStr "x"))
     /\ snd (Message.__getitem__ ab "b" h') = snd (Message.__getitem__ ab "b" ab_heap).
Proof.
  split; [reflexivity |]. split; [discriminate |].
  apply (setitem_then_getitem ab "a" "b" (VStr "x") ab_heap
           [("a", VInt 1); ("b", VInt 2)]); [reflexivity | discriminate].
Defined.

(** X2. The order of the keys: [msg[key] = value] keeps the keys of the
    payload in place when [key] is one of them, and puts [key] behind them
    when it is new. *)
Theorem setitem_keeps_key_order (msg : Message.t) (key : string) (value : PyVal)
  (h : Heap) (items : Dict) :
  h !! Message._data msg = Some (VDict items) ->
  exists items',
    fst (Message.__setitem__ msg key value h) !! Message._data msg = Some (VDict items')
    /\ map fst items' =
         if bool_decide (key ∈ map fst items) then map fst items
         else (map fst items ++ [key])%list.
Proof.
  intros Hdata. exists (dict_set items key value).
  rewrite (setitem_dict msg key value h items Hdata). cbn [fst].
  split; [apply lookup_insert_eq | apply dict_set_keys].
Qed.

Lemma setitem_keeps_key_order_witness :
  ab_heap !! Message._data ab = Some (VDict [("a", VInt 1); ("b", VInt 2)])
  /\ exists items',
       fst (Message.__setitem__ ab "c" VNone ab_heap) !! Message._data ab
       = Some (VDict items')
       /\ map fst items' =
            if bool_decide ("c" ∈ map fst [("a", VInt 1); ("b", VInt 2)])
            then map fst [("a", VInt 1); ("b", VInt 2)]
            else (map fst [("a", VInt 1); ("b", VInt 2)] ++ ["c"])%list.
Proof.
  split; [reflexivity |].
  apply (setitem_keeps_key_order ab "c" VNone ab_heap [("a", VInt 1); ("b", VInt 2)]).
  reflexivity.
Defined.

(** X3. Removing: [msg.remove(key)] on a dictionary payload returns; the
    key is gone afterwards ([msg[key]] raises [KeyError]), every other key
    reads as before, and removing a key the payload does not have leaves the
    store as it was. *)
Theorem remove_then_getitem (msg : Message.t) (key other : string)
  (h : Heap) (items : Dict) :
  h !! Message._data msg = Some (VDict items) ->
  NoDup (map fst items) ->
  other <> key ->
  let h' := fst (Message.remove msg key h) in
  snd (Message.remove msg key h) = Ok tt
  /\ Message.__getitem__ msg key h' = (h', Raise KeyError)
  /\ snd (Message.__getitem__ msg other h') = snd (Message.__getitem__ msg other h)
  /\ (key ∉ map fst items -> h' = h).
Proof.
  intros Hdata Hnd Hne h'. subst h'.
  rewrite (remove_dict msg key h items Hdata). cbn [fst snd].
  split; [reflexivity |].
  rewrite !(getitem_dict msg _ _ (dict_pop items key)) by apply lookup_insert_eq.
  rewrite (getitem_dict msg other h items Hdata).
  rewrite (dict_get_pop items key Hnd), (dict_get_pop_ne items key other Hne).
  split; [reflexivity |]. split; [by destruct (dict_get items other) |].
  intros Habsent. apply dict_get_None in Habsent.
  rewrite (dict_pop_absent items key Habsent). by apply insert_id.
Qed.

Lemma remove_then_getitem_witness :
  ab_heap !! Message._data ab = Some (VDict [("a", VInt 1); ("b", VInt 2)])
  /\ NoDup (map fst [("a", VInt 1); ("b", VInt 2)])
  /\ "b" <> "a"
  /\ let h' := fst (Message.remove ab "a" ab_heap) in
     snd (Message.remove ab "a" ab_heap) = Ok tt
     /\ Message.__getitem__ ab "a" h' = (h', Raise KeyError)
     /\ snd (Message.__getitem__ ab "b" h') = snd (Message.__getitem__ ab "b" ab_heap)
     /\ ("a" ∉ map fst [("a", VInt 1); ("b", VInt 2)] -> h' = ab_heap).
Proof.
  assert (Hnd : NoDup (map fst [("a", VInt 1); ("b", VInt 2)])).
  { apply NoDup_cons_2; [| apply NoDup_singleton].
    rewrite list_elem_of_singleton. discriminate. }
  split; [reflexivity |]. split; [exact Hnd |]. split; [discriminate |].
  apply (remove_then_getitem ab "a" "b" ab_heap [("a", VInt 1); ("b", VInt 2)]);
    [reflexivity | exact Hnd | discriminate].
Defined.

(** X4. Reading: [msg[key]] never changes the store.  On a dictionary
    payload it raises [KeyError] exactly when the payload has no such key,
    and a value it returns is the one the payload holds under the key; on a
    payload that is no dictionary (a message parsed from a JSON text that is
    no object) it raises [TypeError]. *)
Theorem getitem_reads (msg : Message.t) (key : string) (h : Heap) :
  fst (Message.__getitem__ msg key h) = h
  /\ (forall items, h !! Message._data msg = Some (VDict items) ->
        (raises (snd (Message.__getitem__ msg key h)) KeyError
         <-> key ∉ map fst items)
        /\ (forall value, snd (Message.__getitem__ msg key h) = Ok value ->
              In (key, value) items))
  /\ (forall payload, h !! Message._data msg = Some payload ->
        isinstance_dict payload = false ->
        raises (snd (Message.__getitem__ msg key h)) TypeError).
Proof.
  split; [| split].
  - unfold Message.__getitem__, bind, get_state, lift, deref, ret, raise.
    destruct (h !! Message._data msg) as [[] |]; try reflexivity.
    by destruct (dict_get _ key).
  - intros items Hdata. rewrite (getitem_dict msg key h items Hdata).
    rewrite <- dict_get_None. unfold raises.
    destruct (dict_get items key) as [v |] eqn:Hget; cbn.
    + split; [split; discriminate |]. intros value [= <-]. by apply dict_get_Some.
    + split; [done | discriminate].
  - intros payload Hdata Hdict.
    unfold Message.__getitem__, bind, get_state, lift, deref, ret, raise, raises.
    rewrite Hdata. by destruct payload.
Qed.

Lemma getitem_reads_witness :
  fst (Message.__getitem__ ab "z" ab_heap) = ab_heap
  /\ raises (snd (Message.__getitem__ ab "z" ab_heap)) KeyError
  /\ raises (snd (Message.__getitem__ (Message.__init__ "n" 1%positive) "z"
                    (<[1%positive := VInt 1]> ∅))) TypeError.
Proof.
  destruct (getitem_reads ab "z" ab_heap) as (Hfst & Hdict & _).
  destruct (getitem_reads (Message.__init__ "n" 1%positive) "z"
              (<[1%positive := VInt 1]> ∅)) as (_ & _ & Hother).
  split; [exact Hfst |]. split.
  - apply (Hdict [("a", VInt 1); ("b", VInt 2)] eq_refl).
    cbn. rewrite !not_elem_of_cons. repeat split; try discriminate.
    apply not_elem_of_nil.
  - apply (Hother (VInt 1)); reflexivity.
Defined.

(** X5. A method of a message that raises leaves the store as it was:
    [msg[key] = value], [msg.remove(key)], [msg[key]] and [from_json]. *)
Theorem message_raise_leaves_store (msg : Message.t) (key : string) (value : PyVal)
  (message_type json_str : string) (h h' : Heap) (e : exn) :
  (Message.__setitem__ msg key value h = (h', Raise e) -> h' = h)
  /\ (Message.remove msg key h = (h', Raise e) -> h' = h)
  /\ (Message.__getitem__ msg key h = (h', Raise e) -> h' = h)
  /\ (Message.from_json message_type json_str h = (h', Raise e) -> h' = h).
Proof.
  repeat split.
  - unfold Message.__setitem__, bind, get_state, lift, deref, raise, modify.
    destruct (h !! Message._data msg) as [[] |]; by intros [= <-].
  - unfold Message.remove, bind, get_state, lift, deref, raise, modify.
    destruct (h !! Message._data msg) as [[] |]; by intros [= <-].
  - intros Hget. destruct (getitem_reads msg key h) as (Hfst & _).
    by rewrite Hget in Hfst.
  - rewrite from_json_cases. destruct (json_loads json_str); by intros [= <-].
Qed.

Lemma message_raise_leaves_store_witness :
  Message.__setitem__ ab "k" VNone (<[7%positive := VInt 1]> ∅)
  = (<[7%positive := VInt 1]> ∅, Raise TypeError)
  /\ Message.from_json "req" "not json" ab_heap = (ab_heap, Raise JSONDecodeError)
  /\ <[7%positive := VInt 1]> (∅ : Heap) = <[7%positive := VInt 1]> ∅
  /\ ab_heap = ab_heap.
Proof.
  destruct (message_raise_leaves_store ab "k" VNone "req" "not json"
              (<[7%positive := VInt 1]> ∅) (<[7%positive := VInt 1]> ∅) TypeError)
    as (Hset & _).
  destruct (message_raise_leaves_store ab "k" VNone "req" "not json"
              ab_heap ab_heap JSONDecodeError) as (_ & _ & _ & Hjson).
  split; [reflexivity |]. split; [reflexivity |].
  split; [apply Hset | apply Hjson]; reflexivity.
Defined.



(** X7. A method of a message touches the payload of that message alone:
    after [msg[key] = value] or [msg.remove(key)], returned or raised, every
    other object of the store is as it was.  [from_json] changes no object
    at all: its payload is a new one. *)
Theorem message_methods_are_local (msg : Message.t) (key : string) (value : PyVal)
  (message_type json_str : string) (h : Heap) (l : loc) :
  (l <> Message._data msg ->
     fst (Message.__setitem__ msg key value h) !! l = h !! l
     /\ fst (Message.remove msg key h) !! l = h !! l)
  /\ (is_Some (h !! l) ->
        fst (Message.from_json message_type json_str h) !! l = h !! l)
  /\ (forall parsed, snd (Message.from_json message_type json_str h) = Ok parsed ->
        h !! Message._data parsed = None).
Proof.
  repeat split.
  - unfold Message.__setitem__, bind, get_state, lift, deref, raise, modify.
    destruct (h !! Message._data msg) as [[] |]; cbn; try reflexivity.
    by apply lookup_insert_ne.
  - unfold Message.remove, bind, get_state, lift, deref, raise, modify.
    destruct (h !! Message._data msg) as [[] |]; cbn; try reflexivity.
    by apply lookup_insert_ne.
  - intros Hl. rewrite from_json_cases.
    destruct (json_loads json_str); cbn; [| reflexivity].
    apply lookup_insert_ne. intros <-.
    rewrite fresh_not_allocated in Hl. by destruct Hl.
  - intros parsed. rewrite from_json_cases.
    destruct (json_loads json_str); cbn; [| discriminate].
    intros [= <-]. apply fresh_not_allocated.
Qed.

Lemma message_methods_are_local_witness :
  7%positive <> 1%positive
  /\ fst (Message.__setitem__ ping "k" VNone (<[1%positive := VDict []]> ab_heap))
       !! 7%positive
     = (<[1%positive := VDict []]> ab_heap) !! 7%positive
  /\ is_Some (ab_heap !! 7%positive)
  /\ fst (Message.from_json "req" "{}" ab_heap) !! 7%positive = ab_heap !! 7%positive.
Proof.
  destruct (message_methods_are_local ping "k" VNone "req" "{}"
              (<[1%positive := VDict []]> ab_heap) 7%positive) as (Hlocal & _ & _).
  destruct (message_methods_are_local ping "k" VNone "req" "{}" ab_heap 7%positive)
    as (_ & Hjson & _).
  split; [discriminate |]. split; [apply Hlocal; discriminate |].
  assert (Hsome : is_Some (ab_heap !! 7%positive)) by (eexists; reflexivity).
  split; [exact Hsome | apply Hjson, Hsome].
Defined.

(** ** The context: local sends, and the logs over an invocation *)



(** X9. The three logs are append-only: whatever the node calls, each log
    afterwards is the log before followed by new entries, so an entry stays
    at its position and is never removed or rewritten. *)
Theorem logs_are_append_only (calls : list Call) (w : World) :
  extends (Context._sent_messages (ctx w))
    (Context._sent_messages (ctx (run calls w)))
  /\ extends (Context._sent_local_messages (ctx w))
       (Context._sent_local_messages (ctx (run calls w)))
  /\ extends (Context._timer_actions (ctx w))
       (Context._timer_actions (ctx (run calls w)))
  /\ (forall i entry,
        nth_error (Context._timer_actions (ctx w)) i = Some entry ->
        nth_error (Context._timer_actions (ctx (run calls w))) i = Some entry).
Proof.
  destruct (run_grows calls w) as (_ & Hsent & Hlocal & Htimers).
  repeat split; try assumption.
  intros i entry. by apply extends_nth_error.
Qed.

(** The store after a call, in terms of the store before. *)
Lemma step_heap (w : World) (c : Call) :
  heap (step w c) =
    match c with
    | GetItem msg key => fst (Message.__getitem__ msg key (heap w))
    | SetItem msg key value => fst (Message.__setitem__ msg key value (heap w))
    | Remove msg key => fst (Message.remove msg key (heap w))
    | FromJson message_type json_str =>
        fst (Message.from_json message_type json_str (heap w))
    | _ => heap w
    end.
Proof.
  unfold step.
  destruct c; cbn [call]; try apply on_ctx_heap.
  - unfold bind, on_ctx, get_state, ret. reflexivity.
  - unfold bind, on_heap. by destruct (Message.__getitem__ msg key (heap w)) as [h []].
  - unfold on_heap. by destruct (Message.__setitem__ msg key value (heap w)).
  - unfold on_heap. by destruct (Message.remove msg key (heap w)).
  - unfold bind, on_heap.
    by destruct (Message.from_json message_type json_str (heap w)) as [h []].
Qed.

(** The timer-action log after a run is that of its timer calls. *)
Lemma run_timer_calls (calls : list Call) (w w' : World) :
  Context._timer_actions (ctx w) = Context._timer_actions (ctx w') ->
  Context._timer_actions (ctx (run calls w))
  = Context._timer_actions (ctx (run (filter is_timer_call calls) w')).
Proof.
  revert w w'. induction calls as [| c calls IH]; intros w w' Hw; [exact Hw |].
  cbn [run fold_left].
  change (fold_left step ?l ?w0) with (run l w0).
  assert (Hstep : Context._timer_actions (ctx (step w c)) =
                  if is_timer_call c
                  then Context._timer_actions (ctx (step w' c))
                  else Context._timer_actions (ctx w')).
  { rewrite !step_ctx. destruct c; cbn [is_timer_call]; try exact Hw.
    - rewrite send_cases. destruct to; try exact Hw.
      destruct (deref _ _); [| exact Hw]. by destruct (json_dumps _).
    - rewrite send_local_cases.
      destruct (deref _ _); [| exact Hw]. by destruct (json_dumps _).
    - rewrite !set_timer_cases. destruct timer_id; try exact Hw.
      destruct (isinstance_int_float delay); cbn; [| exact Hw].
      congruence.
    - rewrite !cancel_timer_cases. destruct timer_id; try exact Hw.
      cbn. congruence. }
  destruct (is_timer_call c) eqn:Hc.
  - rewrite filter_cons_True by (rewrite Hc; cbn; tauto). by apply IH.
  - rewrite filter_cons_False by (rewrite Hc; cbn; tauto). by apply IH.
Qed.

(** The store and the two send logs after a run are those of its calls
    other than timer calls. *)
Lemma run_other_calls (calls : list Call) (w w' : World) :
  heap w = heap w' ->
  Context._sent_messages (ctx w) = Context._sent_messages (ctx w') ->
  Context._sent_local_messages (ctx w) = Context._sent_local_messages (ctx w') ->
  let w1 := run calls w in
  let w2 := run (filter (fun c => negb (is_timer_call c)) calls) w' in
  heap w1 = heap w2
  /\ Context._sent_messages (ctx w1) = Context._sent_messages (ctx w2)
  /\ Context._sent_local_messages (ctx w1) = Context._sent_local_messages (ctx w2).
Proof.
  revert w w'. induction calls as [| c calls IH]; intros w w' Hh Hs Hl; [done |].
  cbn [run fold_left].
  change (fold_left step ?l ?w0) with (run l w0).
  destruct (is_timer_call c) eqn:Hc.
  - rewrite filter_cons_False by (rewrite Hc; cbn; tauto).
    apply IH.
    + rewrite step_heap. by destruct c.
    + rewrite step_ctx. destruct c; try discriminate.
      * rewrite set_timer_cases. destruct timer_id; try exact Hs.
        by destruct (isinstance_int_float delay).
      * rewrite cancel_timer_cases. by destruct timer_id.
    + rewrite step_ctx. destruct c; try discriminate.
      * rewrite set_timer_cases. destruct timer_id; try exact Hl.
        by destruct (isinstance_int_float delay).
      * rewrite cancel_timer_cases. by destruct timer_id.
  - rewrite filter_cons_True by (rewrite Hc; cbn; tauto).
    cbn [run fold_left].
    change (fold_left step ?l ?w0) with (run l w0).
    apply IH.
    + rewrite !step_heap. destruct c; try exact Hh; by rewrite Hh.
    + rewrite !step_ctx. destruct c; try exact Hs; try discriminate.
      * rewrite !send_cases, Hh. destruct to; try exact Hs.
        destruct (deref _ _); [| exact Hs].
        destruct (json_dumps _); cbn; [by rewrite Hs | exact Hs].
      * rewrite !send_local_cases, Hh.
        destruct (deref _ _); [| exact Hs]. by destruct (json_dumps _).
    + rewrite !step_ctx. destruct c; try exact Hl; try discriminate.
      * rewrite !send_cases, Hh. destruct to; try exact Hl.
        destruct (deref _ _); [| exact Hl]. by destruct (json_dumps _).
      * rewrite !send_local_cases, Hh.
        destruct (deref _ _); [| exact Hl].
        destruct (json_dumps _); cbn; [by rewrite Hl | exact Hl].
Qed.

(** X10. The logs do not interfere.  The timer-action log an invocation
    leaves is the one its [set_timer] and [cancel_timer] calls alone would
    leave: no send, no write to a message and nothing in the store changes
    it.  The store and the two send logs are the ones the other calls alone
    would leave: timer calls change none of them. *)
Theorem logs_do_not_interfere (calls : list Call) (w : World) :
  Context._timer_actions (ctx (run calls w))
  = Context._timer_actions (ctx (run (filter is_timer_call calls) w))
  /\ heap (run calls w)
     = heap (run (filter (fun c => negb (is_timer_call c)) calls) w)
  /\ Context._sent_messages (ctx (run calls w))
     = Context._sent_messages
         (ctx (run (filter (fun c => negb (is_timer_call c)) calls) w))
  /\ Context._sent_local_messages (ctx (run calls w))
     = Context._sent_local_messages
         (ctx (run (filter (fun c => negb (is_timer_call c)) calls) w)).
Proof.
  split; [by apply run_timer_calls | by apply run_other_calls].
Qed.

(** X11. A message that [from_json] returned can always be sent: its
    payload is a JSON value, so [send] to a string destination returns and
    records the message's type with a text of the payload, and [send_local]
    returns as well. *)
Theorem parsed_message_is_sendable (message_type json_str destination : string)
  (h h' : Heap) (msg : Message.t) (c : Context.t) :
  Message.from_json message_type json_str h = (h', Ok msg) ->
  exists payload text,
    json_loads json_str = Ok payload
    /\ json_dumps payload = Ok text
    /\ Context.send h' msg (VStr destination) c
       = (with_sent c (message_type, text, destination), Ok tt)
    /\ Context.send_local h' msg c = (with_sent_local c (message_type, text), Ok tt).
Proof.
  rewrite from_json_cases.
  destruct (json_loads json_str) as [payload |] eqn:Hloads; [| discriminate].
  intros [= <- <-].
  assert (Hrep : json_representable payload = true).
  { by apply is_json_representable, (json_loads_is_json json_str). }
  destruct (json_dumps_representable payload Hrep) as [text Htext].
  exists payload, text. split; [reflexivity |]. split; [exact Htext |].
  rewrite send_cases, send_local_cases. unfold deref. cbn [Message._data Message.__init__].
  by rewrite lookup_insert_eq, Htext.
Qed.

Lemma parsed_message_is_sendable_witness :
  Message.from_json "req" "[1, 2.5]" ab_heap
  = (<[8%positive := VList [VInt 1; VFloat (float_of_decimal false 25 (-1))]]> ab_heap,
     Ok (Message.__init__ "req" 8%positive))
  /\ exists payload text,
       json_loads "[1, 2.5]" = Ok payload
       /\ json_dumps payload = Ok text
       /\ Context.send
            (<[8%positive := VList [VInt 1; VFloat (float_of_decimal false 25 (-1))]]>
               ab_heap)
            (Message.__init__ "req" 8%positive) (VStr "node2") at_ten
          = (with_sent at_ten ("req", text, "node2"), Ok tt)
       /\ Context.send_local
            (<[8%positive := VList [VInt 1; VFloat (float_of_decimal false 25 (-1))]]>
               ab_heap)
            (Message.__init__ "req" 8%positive) at_ten
          = (with_sent_local at_ten ("req", text), Ok tt).
Proof.
  assert (Hparse :
    Message.from_json "req" "[1, 2.5]" ab_heap
    = (<[8%positive := VList [VInt 1; VFloat (float_of_decimal false 25 (-1))]]> ab_heap,
       Ok (Message.__init__ "req" 8%positive))) by (vm_compute; reflexivity).
  split; [exact Hparse |].
  exact (parsed_message_is_sendable "req" "[1, 2.5]" "node2" ab_heap _ _ at_ten Hparse).
Defined.

(** ** The round trip through JSON

    What [send] records is what [from_json] reads: the decoder takes the
    text the encoder wrote for a value back to that value. *)

(** *** Texts *)





(** *** Numbers *)
















(** *** Strings *)



(** *** The scanner: its budget, and one turn of its loops *)






(** *** The first character of a text *)









(** *** Lists and dictionaries *)









(** *** [json.loads] after [json.dumps] *)



(** *** From the sender to the receiver *)



